(** * Septica App Store screenshot overlays

    A shallow embedding of [AppStoreScreenshots/add_overlays.py]: the
    overlay compositor ([create_overlay_text], [add_gradient_overlay]), the
    six per-category routines and the batch driver, followed by the
    properties of the specification.

    Conventions of the embedding.
    - Python [int] values are [Z].  Python [float] values are exact rationals
      ([Q]): the decimal literals of the script ([0.06], [0.4], ...) denote
      themselves, and [int(.)] is truncation toward zero.  Module
      [Binary64] replays the same expressions on IEEE binary64 numbers; the
      last lemmas of the file compare both readings on the widths and
      heights a screenshot can have.
    - An image is a mode, a size and a pixel function; pixels carry four
      channels, an [RGB] image keeps its alpha channel at 255.
    - The file system is a finite map from paths to nodes.  A statement
      runs from a file system and leaves an outcome: a value or an
      exception, the file system afterwards, the lines printed and the
      calls made into the imaging library.
    - What the imaging library does to pixels when it renders text or
      blends a translucent pixel, whether a font file loads, and how Python
      reads a hex pair are parameters of the development.  Drawing on an
      image in memory is taken to return; channel values are kept as they
      are passed, without the library's clamping to 0..255. *)

From Stdlib Require Import ZArith QArith Qround Floats Lia.
From stdpp Require Import gmap strings list fin_maps.

Local Open Scope Z_scope.

#[local] Set Warnings "-register-all,-inexact-float".

(** ** Python numbers *)

(** [int(x)] on a float: truncation toward zero. *)
Definition py_int (x : Q) : Z := Z.quot (Qnum x) (Z.pos (Qden x)).

(** [round(x)] on a float: nearest integer, ties to the even one. *)
Definition py_round (x : Q) : Z :=
  let f := Qfloor x in
  match (2 * (x - inject_Z f) ?= 1)%Q with
  | Lt => f
  | Gt => f + 1
  | Eq => if Z.even f then f else f + 1
  end.

(** [int(n * f)] for an [int] [n] and a float literal [f]. *)
Definition int_times (n : Z) (f : Q) : Z := py_int (inject_Z n * f)%Q.

(** Exceptions of the Python run time and of the imaging library that the
    script can meet. [FileNotFoundError] is the only one it names. *)
Inductive exn :=
| FileNotFoundError
| IsADirectoryError
| FileExistsError
| JSONDecodeError
| UnidentifiedImageError
| NotADirectoryError
| ValueError.

Inductive result (A : Type) :=
| Ok (a : A)
| Raise (e : exn).
Arguments Ok {A} a.
Arguments Raise {A} e.

Definition rbind {A B} (r : result A) (k : A -> result B) : result B :=
  match r with
  | Ok a => k a
  | Raise e => Raise e
  end.

(** A [for] loop whose body may raise: the accumulator is threaded through
    the items, the first exception ends the loop. *)
Fixpoint for_each {A S} (body : S -> A -> result S) (items : list A) (s : S)
  : result S :=
  match items with
  | [] => Ok s
  | i :: rest => rbind (body s i) (for_each body rest)
  end.

(** ** Images *)

Record rgba := RGBA { red : Z; green : Z; blue : Z; alpha : Z }.

Inductive mode := ModeRGB | ModeRGBA.

Record image := Image {
  im_mode : mode;
  im_width : Z;
  im_height : Z;
  im_px : Z -> Z -> rgba
}.

Definition im_size (im : image) : Z * Z := (im_width im, im_height im).

Definition opaque (p : rgba) : rgba := RGBA (red p) (green p) (blue p) 255.

Definition mode_eqb (a b : mode) : bool :=
  match a, b with
  | ModeRGB, ModeRGB | ModeRGBA, ModeRGBA => true
  | _, _ => false
  end.

(** [Image.new(mode, size, color)] *)
Definition image_new (m : mode) (size : Z * Z) (fill : rgba) : image :=
  Image m (fst size) (snd size) (fun _ _ => fill).

(** [image.convert(mode)]: a new image of the same size. Going to [RGB]
    drops the alpha channel, coming from [RGB] every pixel is opaque. *)
Definition convert (m : mode) (im : image) : image :=
  match m, im_mode im with
  | ModeRGBA, ModeRGBA => im
  | _, _ => Image m (im_width im) (im_height im)
                  (fun px py => opaque (im_px im px py))
  end.

Definition in_image (im : image) (px py : Z) : bool :=
  (0 <=? px) && (px <? im_width im) && (0 <=? py) && (py <? im_height im).

(** The box of [ImageDraw.rectangle] includes both of its corners. *)
Definition in_box (box : Z * Z * Z * Z) (px py : Z) : bool :=
  let '(x0, y0, x1, y1) := box in
  (x0 <=? px) && (px <=? x1) && (y0 <=? py) && (py <=? y1).

(** [draw.rectangle(box, fill=color)] on the drawing surface of [im]: the
    pixels of the box that lie in the image take the fill value (a drawing
    surface in the image's own mode stores the ink, it does not blend). *)
Definition draw_rectangle (im : image) (box : Z * Z * Z * Z) (fill : rgba)
  : image :=
  Image (im_mode im) (im_width im) (im_height im)
        (fun px py =>
           if in_box box px py && in_image im px py then fill
           else im_px im px py).

Declare Scope result_scope.
Delimit Scope result_scope with result.
Notation "'let!' x := e 'in' k" := (rbind e (fun x => k))
  (at level 10, x name, e at level 100, k at level 200) : result_scope.

(** The colour argument of [add_gradient_overlay]: a channel tuple or a
    hex string such as ["#004C9F"]. *)
Inductive color_arg :=
| ColorTuple (r g b : Z)
| ColorHex (s : string).

(** [s[1:]] *)
Definition py_tail (s : string) : string :=
  match s with
  | EmptyString => EmptyString
  | String _ t => t
  end.

(** [start_color[1:][i:i+2]] *)
Definition hex_slice (s : string) (i : nat) : string :=
  String.substring i 2 (py_tail s).

(** [alpha = int(opacity * 255 * (1 - i / height))] *)
Definition gradient_alpha (opacity : Q) (height i : Z) : Z :=
  py_int (opacity * 255 * (1 - inject_Z i / inject_Z height))%Q.

(** ** The same arithmetic on IEEE binary64

    What Python computes: the literals are the nearest binary64 numbers,
    products and quotients are rounded, [int(.)] truncates. *)
Module Binary64.

(** [float(n)] for an [int] below 2^63 in absolute value. *)
Definition of_int (n : Z) : float :=
  let magnitude := PrimFloat.of_uint63 (Uint63.of_Z (Z.abs n)) in
  if n <? 0 then (- magnitude)%float else magnitude.

(** [int(x)] for a finite [x]. *)
Definition to_int (x : float) : Z :=
  match Prim2SF x with
  | S754_finite negative m e =>
      let magnitude :=
        if 0 <=? e then Z.pos m * 2 ^ e else Z.pos m / 2 ^ (- e) in
      if negative then - magnitude else magnitude
  | _ => 0
  end.

(** [int(n * f)] *)
Definition float_int_times (n : Z) (f : float) : Z := to_int (of_int n * f)%float.

(** [int(opacity * 255 * (1 - i / height))] *)
Definition float_gradient_alpha (opacity : float) (height i : Z) : Z :=
  to_int (opacity * 255 * (1 - of_int i / of_int height))%float.

(** The float literals of the script, each with the decimal it is written
    as. *)
Definition literals : list (float * Q) :=
  [ (0.025%float, 0.025%Q); (0.035%float, 0.035%Q); (0.045%float, 0.045%Q);
    (0.05%float, 0.05%Q); (0.06%float, 0.06%Q); (0.08%float, 0.08%Q);
    (0.1%float, 0.1%Q); (0.3%float, 0.3%Q); (0.85%float, 0.85%Q);
    (0.88%float, 0.88%Q) ].

(** Both readings of [int(n * f)] agree for every literal and every [n]
    from 0 up to [bound]. *)
Definition int_times_agree (bound : Z) : bool :=
  forallb
    (fun n =>
       forallb (fun '(f, q) => float_int_times n f =? int_times n q)
               literals)
    (seqZ 0 (bound + 1)).

(** For the opacity of the script and a height: the binary64 alpha of
    every row is the exact one or one less, and both agree on the first
    row. *)
Definition alpha_close (height : Z) : bool :=
  (float_gradient_alpha 0.4 height 0 =? gradient_alpha 0.4 height 0)
  && forallb
       (fun i =>
          let a := float_gradient_alpha 0.4 height i in
          let exact := gradient_alpha 0.4 height i in
          (a <=? exact) && (exact <=? a + 1))
       (seqZ 0 height).

(** For the opacity of the script and a height: the binary64 alpha of the
    last row is 0. *)
Definition last_alpha_zero (height : Z) : bool :=
  float_gradient_alpha 0.4 height (height - 1) =? 0.

End Binary64.

(** Fonts: a TrueType file opened at a size, or the built-in one. *)
Inductive font :=
| TrueType (file : list string) (font_size : Z)
| DefaultFont.

(** What [draw.text] is asked to draw. *)
Record text_request := TextRequest {
  tr_position : Z * Z;
  tr_text : string;
  tr_font : font;
  tr_fill : string;
  tr_stroke : option (Z * string)
}.

(** ** The world of the script *)

(** Paths are lists of components; [base / name] appends one. *)
Abbreviation path := (list string).

(** A parsed JSON document. *)
Inductive json :=
| JNull
| JBool (b : bool)
| JNumber (n : Z)
| JString (s : string)
| JArray (items : list json)
| JObject (members : list (string * json)).

(** What sits at a path, as the decoders of the script see it. *)
Inductive node :=
| Directory
| ImageFile (im : image)
| JsonFile (j : json)
| OtherFile.

(** The six categories, one per processing routine. *)
Inductive category :=
| MainMenu
| Gameplay
| Accessibility
| CulturalHeritage
| Statistics
| Victory.

(** One constructor per [print] of the script. *)
Inductive message :=
| MsgMetadataNotFound (metadata_file : path)
| MsgProcessing (c : category) (device_type : string)
| MsgSaved (output_path : path)
| MsgError (input_path : path) (e : exn)
| MsgRawDirNotFound (raw_dir : path)
| MsgScreenshotNotFound (raw_path : path)
| MsgStart
| MsgRule
| MsgDevice (device_type : string)
| MsgComplete
| MsgSavedIn.

(** The calls a routine makes into the imaging library and into the two
    compositor methods, in order. *)
Inductive call :=
| CallOpen (input_path : path)
| CallConvert (m : mode)
| CallGradient (start_color end_color : color_arg) (position size : Z * Z)
               (opacity : Q)
| CallText (text : string) (position : Z * Z) (font_size : Z) (color : string)
           (weight : string) (stroke_width : Z) (stroke_fill : option string)
| CallSave (output_path : path) (format : string) (quality : Z).

(** What running a statement or expression leaves behind: its result (a
    value or an exception), the file system, the lines it printed and the
    calls it made. *)
Record outcome (A : Type) := Outcome {
  res : result A;
  fs_after : gmap path node;
  printed : list message;
  called : list call
}.
Arguments Outcome {A} res fs_after printed called.
Arguments res {A} o.
Arguments fs_after {A} o.
Arguments printed {A} o.
Arguments called {A} o.

(** A statement or expression of the script, run from a file system. *)
Definition M (A : Type) : Type := gmap path node -> outcome A.

Definition ret {A} (a : A) : M A := fun fs => Outcome (Ok a) fs [] [].

Definition raise {A} (e : exn) : M A := fun fs => Outcome (Raise e) fs [] [].

(** [o] followed by [o2], which started from the file system of [o]. *)
Definition and_then {A B} (o : outcome A) (o2 : outcome B) : outcome B :=
  Outcome (res o2) (fs_after o2) (printed o ++ printed o2)
          (called o ++ called o2).

Definition bind {A B} (m : M A) (k : A -> M B) : M B :=
  fun fs =>
    let o := m fs in
    match res o with
    | Ok a => and_then o (k a (fs_after o))
    | Raise e => Outcome (Raise e) (fs_after o) (printed o) (called o)
    end.

(** [try: body except <classes> as e: handler]; [classes] tells which
    exceptions the clause catches. *)
Definition try_except {A} (classes : exn -> bool) (body : M A)
    (handler : exn -> M A) : M A :=
  fun fs =>
    let o := body fs in
    match res o with
    | Ok a => o
    | Raise e => if classes e then and_then o (handler e (fs_after o)) else o
    end.

(** [except Exception] and a bare [except] catch every exception above. *)
Definition Exception (e : exn) : bool := true.

Definition only_FileNotFoundError (e : exn) : bool :=
  match e with
  | FileNotFoundError => true
  | _ => false
  end.

Definition lift {A} (r : result A) : M A := fun fs => Outcome r fs [] [].

Definition print (m : message) : M unit := fun fs => Outcome (Ok tt) fs [m] [].

Definition record (c : call) : M unit := fun fs => Outcome (Ok tt) fs [] [c].

Declare Scope py_scope.
Delimit Scope py_scope with py.
Notation "'let!' x := e 'in' k" := (bind e (fun x => k))
  (at level 10, x name, e at level 100, k at level 200) : py_scope.
Notation "'do!' e 'in' k" := (bind e (fun _ => k))
  (at level 10, e at level 100, k at level 200) : py_scope.

(** A [for] loop over statements. *)
Fixpoint for_each_M {A} (body : A -> M unit) (items : list A) : M unit :=
  match items with
  | [] => ret tt
  | i :: rest => (do! body i in for_each_M body rest)%py
  end.

(** [path.exists()] and [os.path.exists(path)] *)
Definition path_exists (p : path) : M bool :=
  fun fs => Outcome (Ok (bool_decide (is_Some (fs !! p)))) fs [] [].

(** The directory a path lies in. *)
Definition parent (p : path) : path := removelast p.

(** The error of the operating system for a path that does not lead
    anywhere. The components before the last are walked from the root:
    the first one that is a file and not a directory gives
    [NotADirectoryError]; the first one that is missing, or a missing last
    component, gives [FileNotFoundError]. *)
Fixpoint resolve_error (fs : gmap path node) (walked rest : path) : exn :=
  match rest with
  | [] => FileNotFoundError
  | name :: rest' =>
      match rest' with
      | [] => FileNotFoundError
      | _ :: _ =>
          match fs !! (walked ++ [name]) with
          | Some Directory => resolve_error fs (walked ++ [name]) rest'
          | Some _ => NotADirectoryError
          | None => FileNotFoundError
          end
      end
  end.

Definition missing_error (fs : gmap path node) (p : path) : exn :=
  resolve_error fs [] p.

(** Creating an entry at [p] needs the directory [p] lies in. *)
Definition in_directory (fs : gmap path node) (p : path) : result unit :=
  match fs !! parent p with
  | Some Directory => Ok tt
  | _ => Raise (missing_error fs p)
  end.

(** [open(p)] followed by [json.load]. *)
Definition open_json (p : path) : M json :=
  fun fs =>
    match fs !! p with
    | None => Outcome (Raise (missing_error fs p)) fs [] []
    | Some Directory => Outcome (Raise IsADirectoryError) fs [] []
    | Some (JsonFile j) => Outcome (Ok j) fs [] []
    | Some _ => Outcome (Raise JSONDecodeError) fs [] []
    end.

(** [Image.open(p)] *)
Definition image_open (p : path) : M image :=
  fun fs =>
    match fs !! p with
    | None => Outcome (Raise (missing_error fs p)) fs [] [CallOpen p]
    | Some Directory => Outcome (Raise IsADirectoryError) fs [] [CallOpen p]
    | Some (ImageFile im) => Outcome (Ok im) fs [] [CallOpen p]
    | Some _ => Outcome (Raise UnidentifiedImageError) fs [] [CallOpen p]
    end.

Definition image_convert (m : mode) (im : image) : M image :=
  fun fs => Outcome (Ok (convert m im)) fs [] [CallConvert m].

(** Whether a file can be written at [p]: no directory sits there and the
    directory it lies in exists. *)
Definition writable (fs : gmap path node) (p : path) : result unit :=
  match fs !! p with
  | Some Directory => Raise IsADirectoryError
  | _ => in_directory fs p
  end.

(** [im.save(p, format, quality=q)]: the file is created or replaced, or
    the call raises. *)
Definition image_save (im : image) (p : path) (format : string) (quality : Z)
  : M unit :=
  fun fs =>
    match writable fs p with
    | Ok _ => Outcome (Ok tt) (<[p := ImageFile im]> fs) []
                      [CallSave p format quality]
    | Raise e => Outcome (Raise e) fs [] [CallSave p format quality]
    end.

(** [p.mkdir(exist_ok=True)] *)
Definition mkdir_exist_ok (p : path) : M unit :=
  fun fs =>
    match fs !! p with
    | Some Directory => Outcome (Ok tt) fs [] []
    | Some _ => Outcome (Raise FileExistsError) fs [] []
    | None =>
        match in_directory fs p with
        | Ok _ => Outcome (Ok tt) (<[p := Directory]> fs) [] []
        | Raise e => Outcome (Raise e) fs [] []
        end
    end.

(** The object built by [ScreenshotOverlayGenerator(base_dir)]. *)
Record generator := Generator {
  base_dir : path;
  metadata_file : path;
  metadata : json
}.

(** ** A reference library and file system

    One concrete choice for what the script takes from the imaging library
    and from Python, and a small directory tree, to run the script on. *)
Module Reference.

(** The blend keeps the source colour and makes the pixel opaque. *)
Definition over (dst src : rgba) : rgba :=
  RGBA (red src) (green src) (blue src) 255.

Definition hex_digit (c : Ascii.ascii) : option Z :=
  let n := Z.of_N (Ascii.N_of_ascii c) in
  if (48 <=? n) && (n <=? 57) then Some (n - 48)
  else if (65 <=? n) && (n <=? 70) then Some (n - 55)
  else if (97 <=? n) && (n <=? 102) then Some (n - 87)
  else None.

(** Two hex digits. *)
Definition int16 (s : string) : option Z :=
  match s with
  | String a (String b EmptyString) =>
      match hex_digit a, hex_digit b with
      | Some x, Some y => Some (16 * x + y)
      | _, _ => None
      end
  | _ => None
  end.

(** A text leaves one white pixel at its position. *)
Definition render_text (req : text_request) (im : image) (px py : Z) : rgba :=
  if (px =? fst (tr_position req)) && (py =? snd (tr_position req))
  then RGBA 255 255 255 255
  else im_px im px py.

Definition truetype_loads (file : path) (size : Z) : bool := 0 <? size.

(** A grey [RGB] screenshot of the given size. *)
Definition screenshot (width height : Z) : image :=
  Image ModeRGB width height (fun _ _ => RGBA 90 90 90 255).

Definition base : path := ["shots"]%string.

(** [shots/iPhone_6.7/Raw] holds the main-menu and the gameplay
    screenshot, 10 by 20 pixels each; there is no metadata file, no font
    file and no other device directory. *)
Definition tree : gmap path node :=
  <[ ["shots"; "iPhone_6.7"; "Raw"; "02_gameplay.png"]%string :=
       ImageFile (screenshot 10 20) ]>
  (<[ ["shots"; "iPhone_6.7"; "Raw"; "01_main_menu.png"]%string :=
       ImageFile (screenshot 10 20) ]>
  (<[ ["shots"; "iPhone_6.7"; "Raw"]%string := Directory ]>
  (<[ ["shots"; "iPhone_6.7"]%string := Directory ]>
  (<[ ["shots"]%string := Directory ]> ∅)))).

(** The generator [main] builds for this tree. *)
Definition self : generator :=
  Generator base ["shots"; "screenshot_metadata.json"]%string (JObject []).

Definition raw_gameplay : path :=
  ["shots"; "iPhone_6.7"; "Raw"; "02_gameplay.png"]%string.
Definition raw_main_menu : path :=
  ["shots"; "iPhone_6.7"; "Raw"; "01_main_menu.png"]%string.
Definition out_gameplay : path :=
  ["shots"; "iPhone_6.7"; "Processed"; "02_gameplay.png"]%string.
Definition out_main_menu : path :=
  ["shots"; "iPhone_6.7"; "Processed"; "01_main_menu.png"]%string.

(** The tree once [iPhone_6.7/Processed] exists. *)
Definition tree_with_processed : gmap path node :=
  <[ ["shots"; "iPhone_6.7"; "Processed"]%string := Directory ]> tree.



(** [shots/iPhone_6.7/Raw] is there and empty. *)
Definition tree_without_screenshots : gmap path node :=
  <[ ["shots"; "iPhone_6.7"; "Raw"]%string := Directory ]>
  (<[ ["shots"; "iPhone_6.7"]%string := Directory ]>
  (<[ ["shots"]%string := Directory ]> ∅)).

(** The base directory alone. *)
Definition bare_tree : gmap path node := <[ ["shots"]%string := Directory ]> ∅.

End Reference.

Section Script.

(** The imaging library and the Python run time, as far as the script
    relies on them. *)

(** The "over" blend of a source pixel that is not fully transparent onto
    a destination pixel. *)
Variable over : rgba -> rgba -> rgba.

(** [int(s, 16)]; [None] when Python raises [ValueError]. *)
Variable int16 : string -> option Z.

(** The pixels after [draw.text] has rendered a request on an image. *)
Variable render_text : text_request -> image -> Z -> Z -> rgba.

(** Whether [ImageFont.truetype(file, size)] returns; it raises otherwise. *)
Variable truetype_loads : list string -> Z -> bool.

(** [Image.alpha_composite(im1, im2)]: both images are [RGBA] and of one
    size, or the library raises [ValueError]. A fully transparent source
    pixel leaves the destination pixel as it is. *)
Definition composite_px (dst src : rgba) : rgba :=
  if alpha src =? 0 then dst else over dst src.

Definition alpha_composite (im1 im2 : image) : result image :=
  if mode_eqb (im_mode im1) ModeRGBA && mode_eqb (im_mode im2) ModeRGBA
     && (im_width im1 =? im_width im2) && (im_height im1 =? im_height im2)
  then Ok (Image ModeRGBA (im_width im1) (im_height im1)
                 (fun px py => composite_px (im_px im1 px py) (im_px im2 px py)))
  else Raise ValueError.

(** The fill of one strip: the channels of a tuple followed by [alpha], or
    the three hex pairs of a string followed by [alpha]. *)
Definition fill_color (start_color : color_arg) (a : Z) : result rgba :=
  match start_color with
  | ColorTuple r g b => Ok (RGBA r g b a)
  | ColorHex s =>
      match int16 (hex_slice s 0), int16 (hex_slice s 2), int16 (hex_slice s 4) with
      | Some r, Some g, Some b => Ok (RGBA r g b a)
      | _, _, _ => Raise ValueError
      end
  end.

(** The body of the loop of [add_gradient_overlay]. *)
Definition gradient_strip (start_color : color_arg) (opacity : Q)
    (x y width height : Z) (overlay : image) (i : Z) : result image :=
  (let! color := fill_color start_color (gradient_alpha opacity height i) in
   Ok (draw_rectangle overlay (x, y + i, x + width, y + i + 1) color))%result.

(** The translucent layer that [add_gradient_overlay] builds before it
    composites: [Image.new] followed by the loop over [range(height)]. *)
Definition gradient_overlay (image_size : Z * Z) (start_color : color_arg)
    (position size : Z * Z) (opacity : Q) : result image :=
  let overlay := image_new ModeRGBA image_size (RGBA 0 0 0 0) in
  let '(x, y) := position in
  let '(width, height) := size in
  for_each (gradient_strip start_color opacity x y width height)
           (seqZ 0 height) overlay.

Definition add_gradient_overlay (im : image) (start_color end_color : color_arg)
    (position size : Z * Z) (opacity : Q) : result image :=
  (let! overlay :=
     gradient_overlay (im_size im) start_color position size opacity in
   let! blended := alpha_composite (convert ModeRGBA im) overlay in
   Ok (convert ModeRGB blended))%result.

(** ** The script *)

Definition ROMANIAN_BLUE : string := "#004C9F".
Definition ROMANIAN_YELLOW : string := "#FCD535".
Definition ROMANIAN_RED : string := "#CE1126".
Definition APP_STORE_BLACK : string := "#000000".
Definition APP_STORE_WHITE : string := "#FFFFFF".

(** [s.startswith(p)] *)
Definition startswith (s p : string) : bool := String.prefix p s.

Definition load_metadata (the_metadata_file : path) : M json :=
  try_except only_FileNotFoundError
    (open_json the_metadata_file)
    (fun _ => (do! print (MsgMetadataNotFound the_metadata_file) in
               ret (JObject []))%py).

(** [__init__] *)
Definition new_generator (the_base_dir : path) : M generator :=
  let the_metadata_file := the_base_dir ++ ["screenshot_metadata.json"%string] in
  (let! the_metadata := load_metadata the_metadata_file in
   ret (Generator the_base_dir the_metadata_file the_metadata))%py.

Definition font_paths : list path :=
  [ ["/"; "System"; "Library"; "Fonts"; "Helvetica.ttc"];
    ["/"; "System"; "Library"; "Fonts"; "Arial.ttf"];
    ["/"; "Library"; "Fonts"; "Arial.ttf"];
    ["/"; "System"; "Library"; "Fonts"; "Geneva.ttf"] ]%string.

(** The loop of [get_font_path]: the first path that exists, or [None]. *)
Fixpoint first_existing (paths : list path) : M (option path) :=
  match paths with
  | [] => ret None
  | p :: rest =>
      (let! found := path_exists p in
       if found then ret (Some p) else first_existing rest)%py
  end.

Definition get_font_path (self : generator) (weight : string)
  : M (option path) :=
  first_existing font_paths.

(** [ImageFont.truetype(file, size)] *)
Definition image_font_truetype (file : path) (size : Z) : M font :=
  if truetype_loads file size then ret (TrueType file size)
  else raise ValueError.

(** [draw.text] works on the image it was created for: same object, same
    size, new pixels. *)
Definition draw_text (im : image) (req : text_request) : image :=
  Image (im_mode im) (im_width im) (im_height im) (render_text req im).

(** Truth value of [stroke_fill]: [None] and the empty string are false. *)
Definition truthy (s : option string) : option string :=
  match s with
  | Some EmptyString => None
  | other => other
  end.

(** [create_overlay_text]. The image is changed in place and returned; the
    embedding returns the changed image and the caller goes on with it. *)
Definition create_overlay_text (self : generator) (im : image) (text : string)
    (position : Z * Z) (font_size : Z) (color : string) (weight : string)
    (stroke_width : Z) (stroke_fill : option string) : M image :=
  (do! record (CallText text position font_size color weight
                        stroke_width stroke_fill) in
   let! fnt :=
     try_except Exception
       (let! font_path := get_font_path self weight in
        match font_path with
        | Some file => image_font_truetype file font_size
        | None => ret DefaultFont
        end)
       (fun _ => ret DefaultFont) in
   match 0 <? stroke_width, truthy stroke_fill with
   | true, Some fill =>
       ret (draw_text im (TextRequest position text fnt color
                                      (Some (stroke_width, fill))))
   | _, _ =>
       ret (draw_text im (TextRequest position text fnt color None))
   end)%py.

(** [self.add_gradient_overlay(...)] as a statement of a routine. *)
Definition self_add_gradient_overlay (self : generator) (im : image)
    (start_color end_color : color_arg) (position size : Z * Z) (opacity : Q)
  : M image :=
  (do! record (CallGradient start_color end_color position size opacity) in
   lift (add_gradient_overlay im start_color end_color position size opacity))%py.

Definition process_main_menu_screenshot (self : generator)
    (input_path output_path : path) (device_type : string) : M unit :=
  (do! print (MsgProcessing MainMenu device_type) in
   try_except Exception
     (let! image := image_open input_path in
      let '(width, height) := im_size image in
      let! image := image_convert ModeRGBA image in
      let gradient_height := int_times height 0.3 in
      let! image :=
        self_add_gradient_overlay self image (ColorTuple 0 0 0)
          (ColorTuple 0 0 0) (0, 0) (width, gradient_height) 0.4 in
      let title_font_size :=
        if startswith device_type "iPhone" then int_times width 0.08
        else int_times width 0.06 in
      let subtitle_font_size :=
        if startswith device_type "iPhone" then int_times width 0.045
        else int_times width 0.035 in
      let title_y := int_times height 0.1 in
      let! image :=
        create_overlay_text self image
          "Experience Authentic Romanian Card Gaming"
          (int_times width 0.05, title_y) title_font_size APP_STORE_WHITE
          "bold" 2 (Some APP_STORE_BLACK) in
      let subtitle_y := title_y + title_font_size + 10 in
      let! image :=
        create_overlay_text self image
          "Jocul Tradițional Românesc"
          (int_times width 0.05, subtitle_y) subtitle_font_size ROMANIAN_YELLOW
          "regular" 1 (Some APP_STORE_BLACK) in
      let feature_y := int_times height 0.85 in
      let feature_font_size :=
        if startswith device_type "iPhone" then int_times width 0.035
        else int_times width 0.025 in
      let! image :=
        create_overlay_text self image
          "• Authentic Romanian Rules • Premium AI Opponent • Cultural Heritage Design"
          (int_times width 0.05, feature_y) feature_font_size APP_STORE_WHITE
          "regular" 1 (Some APP_STORE_BLACK) in
      let! flat := image_convert ModeRGB image in
      do! image_save flat output_path "PNG" 95 in
      print (MsgSaved output_path))
     (fun e => print (MsgError input_path e)))%py.

Definition process_gameplay_screenshot (self : generator)
    (input_path output_path : path) (device_type : string) : M unit :=
  (do! print (MsgProcessing Gameplay device_type) in
   try_except Exception
     (let! image := image_open input_path in
      let '(width, height) := im_size image in
      let! image := image_convert ModeRGBA image in
      let title_font_size :=
        if startswith device_type "iPhone" then int_times width 0.06
        else int_times width 0.045 in
      let! image :=
        create_overlay_text self image
          "7s Beat Any Card - Traditional Romanian Rules"
          (int_times width 0.05, int_times height 0.08) title_font_size
          ROMANIAN_RED "bold" 2 (Some APP_STORE_WHITE) in
      let rule_font_size :=
        if startswith device_type "iPhone" then int_times width 0.035
        else int_times width 0.025 in
      let! image :=
        create_overlay_text self image
          "Șaptele bate orice carte • Authentic Romanian Strategy"
          (int_times width 0.05, int_times height 0.88) rule_font_size
          APP_STORE_WHITE "regular" 1 (Some APP_STORE_BLACK) in
      let! flat := image_convert ModeRGB image in
      do! image_save flat output_path "PNG" 95 in
      print (MsgSaved output_path))
     (fun e => print (MsgError input_path e)))%py.

Definition process_accessibility_screenshot (self : generator)
    (input_path output_path : path) (device_type : string) : M unit :=
  (do! print (MsgProcessing Accessibility device_type) in
   try_except Exception
     (let! image := image_open input_path in
      let '(width, height) := im_size image in
      let! image := image_convert ModeRGBA image in
      let title_font_size :=
        if startswith device_type "iPhone" then int_times width 0.06
        else int_times width 0.045 in
      let! image :=
        create_overlay_text self image
          "Inclusive Gaming for All Romanian Heritage Enthusiasts"
          (int_times width 0.05, int_times height 0.08) title_font_size
          ROMANIAN_BLUE "bold" 2 (Some APP_STORE_WHITE) in
      let feature_font_size :=
        if startswith device_type "iPhone" then int_times width 0.035
        else int_times width 0.025 in
      let! image :=
        create_overlay_text self image
          "VoiceOver • Dynamic Type • High Contrast • Cultural Respect"
          (int_times width 0.05, int_times height 0.88) feature_font_size
          APP_STORE_WHITE "regular" 1 (Some APP_STORE_BLACK) in
      let! flat := image_convert ModeRGB image in
      do! image_save flat output_path "PNG" 95 in
      print (MsgSaved output_path))
     (fun e => print (MsgError input_path e)))%py.

Definition process_cultural_heritage_screenshot (self : generator)
    (input_path output_path : path) (device_type : string) : M unit :=
  (do! print (MsgProcessing CulturalHeritage device_type) in
   try_except Exception
     (let! image := image_open input_path in
      let '(width, height) := im_size image in
      let! image := image_convert ModeRGBA image in
      let title_font_size :=
        if startswith device_type "iPhone" then int_times width 0.06
        else int_times width 0.045 in
      let! image :=
        create_overlay_text self image
          "Preserving Romanian Card Game Traditions"
          (int_times width 0.05, int_times height 0.08) title_font_size
          ROMANIAN_YELLOW "bold" 2 (Some APP_STORE_BLACK) in
      let heritage_font_size :=
        if startswith device_type "iPhone" then int_times width 0.035
        else int_times width 0.025 in
      let! image :=
        create_overlay_text self image
          "Păstrăm tradițiile jocurilor românești cu mândrie"
          (int_times width 0.05, int_times height 0.88) heritage_font_size
          APP_STORE_WHITE "regular" 1 (Some APP_STORE_BLACK) in
      let! flat := image_convert ModeRGB image in
      do! image_save flat output_path "PNG" 95 in
      print (MsgSaved output_path))
     (fun e => print (MsgError input_path e)))%py.

Definition process_statistics_screenshot (self : generator)
    (input_path output_path : path) (device_type : string) : M unit :=
  (do! print (MsgProcessing Statistics device_type) in
   try_except Exception
     (let! image := image_open input_path in
      let '(width, height) := im_size image in
      let! image := image_convert ModeRGBA image in
      let title_font_size :=
        if startswith device_type "iPhone" then int_times width 0.06
        else int_times width 0.045 in
      let! image :=
        create_overlay_text self image
          "Track Your Romanian Card Game Journey"
          (int_times width 0.05, int_times height 0.08) title_font_size
          ROMANIAN_BLUE "bold" 2 (Some APP_STORE_WHITE) in
      let stats_font_size :=
        if startswith device_type "iPhone" then int_times width 0.035
        else int_times width 0.025 in
      let! image :=
        create_overlay_text self image
          "Progress • Achievements • Cultural Milestones"
          (int_times width 0.05, int_times height 0.88) stats_font_size
          APP_STORE_WHITE "regular" 1 (Some APP_STORE_BLACK) in
      let! flat := image_convert ModeRGB image in
      do! image_save flat output_path "PNG" 95 in
      print (MsgSaved output_path))
     (fun e => print (MsgError input_path e)))%py.

Definition process_victory_screenshot (self : generator)
    (input_path output_path : path) (device_type : string) : M unit :=
  (do! print (MsgProcessing Victory device_type) in
   try_except Exception
     (let! image := image_open input_path in
      let '(width, height) := im_size image in
      let! image := image_convert ModeRGBA image in
      let title_font_size :=
        if startswith device_type "iPhone" then int_times width 0.06
        else int_times width 0.045 in
      let! image :=
        create_overlay_text self image
          "Celebrate Your Romanian Heritage Victories"
          (int_times width 0.05, int_times height 0.08) title_font_size
          ROMANIAN_RED "bold" 2 (Some APP_STORE_WHITE) in
      let victory_font_size :=
        if startswith device_type "iPhone" then int_times width 0.035
        else int_times width 0.025 in
      let! image :=
        create_overlay_text self image
          "Felicitări! Ai câștigat cu stilul românesc!"
          (int_times width 0.05, int_times height 0.88) victory_font_size
          ROMANIAN_YELLOW "regular" 1 (Some APP_STORE_BLACK) in
      let! flat := image_convert ModeRGB image in
      do! image_save flat output_path "PNG" 95 in
      print (MsgSaved output_path))
     (fun e => print (MsgError input_path e)))%py.

(** The dictionary [screenshot_processors], in insertion order. *)
Definition screenshot_processors (self : generator)
  : list (string * (path -> path -> string -> M unit)) :=
  [ ("01_main_menu.png", process_main_menu_screenshot self);
    ("02_gameplay.png", process_gameplay_screenshot self);
    ("03_accessibility.png", process_accessibility_screenshot self);
    ("04_cultural_heritage.png", process_cultural_heritage_screenshot self);
    ("05_statistics.png", process_statistics_screenshot self);
    ("06_victory.png", process_victory_screenshot self) ]%string.

(** The body of the loop of [process_screenshots_for_device]. *)
Definition process_one (raw_dir processed_dir : path) (device_type : string)
    (item : string * (path -> path -> string -> M unit)) : M unit :=
  let '(filename, processor) := item in
  let raw_path := raw_dir ++ [filename] in
  let processed_path := processed_dir ++ [filename] in
  (let! present := path_exists raw_path in
   if present then processor raw_path processed_path device_type
   else print (MsgScreenshotNotFound raw_path))%py.

Definition process_screenshots_for_device (self : generator)
    (device_type : string) : M unit :=
  let device_dir := base_dir self ++ [device_type] in
  let raw_dir := device_dir ++ ["Raw"%string] in
  let processed_dir := device_dir ++ ["Processed"%string] in
  (let! raw_present := path_exists raw_dir in
   if negb raw_present then print (MsgRawDirNotFound raw_dir)
   else
     do! mkdir_exist_ok processed_dir in
     for_each_M (process_one raw_dir processed_dir device_type)
                (screenshot_processors self))%py.

Definition device_types : list string :=
  ["iPhone_6.7"; "iPhone_6.5"; "iPhone_5.5"; "iPad_12.9"; "iPad_11.0"]%string.

Definition process_all_screenshots (self : generator) : M unit :=
  (do! print MsgStart in
   do! print MsgRule in
   do! for_each_M
         (fun device_type =>
            do! print (MsgDevice device_type) in
            process_screenshots_for_device self device_type)
         device_types in
   do! print MsgComplete in
   print MsgSavedIn)%py.

(** [main]: [argv1] is [sys.argv[1]] when it is given, [script_dir] the
    directory of the script. *)
Definition main (argv1 : option path) (script_dir : path) : M unit :=
  let the_base_dir :=
    match argv1 with
    | Some given => given
    | None => script_dir
    end in
  (let! the_generator := new_generator the_base_dir in
   process_all_screenshots the_generator)%py.

(** ** Derived descriptions, used to state what the routines do *)

(** The strips of the gradient loop when the colour is a tuple. *)
Definition strips (r g b : Z) (opacity : Q) (x y width height : Z)
    (items : list Z) (overlay : image) : image :=
  fold_left
    (fun ov i =>
       draw_rectangle ov (x, y + i, x + width, y + i + 1)
                      (RGBA r g b (gradient_alpha opacity height i)))
    items overlay.


(** The font [create_overlay_text] ends up with: the first font file that
    exists if the library loads it, the built-in font otherwise. *)
Definition select_font (fs : gmap path node) (font_size : Z) : font :=
  match List.find (fun p => bool_decide (is_Some (fs !! p))) font_paths with
  | Some file =>
      if truetype_loads file font_size then TrueType file font_size
      else DefaultFont
  | None => DefaultFont
  end.

(** The stroke [create_overlay_text] asks for. *)
Definition stroke_of (stroke_width : Z) (stroke_fill : option string)
  : option (Z * string) :=
  match 0 <? stroke_width, truthy stroke_fill with
  | true, Some fill => Some (stroke_width, fill)
  | _, _ => None
  end.

(** The image after one text pass. *)
Definition with_text (fs : gmap path node) (im : image) (text : string)
    (position : Z * Z) (font_size : Z) (color : string) (stroke_width : Z)
    (stroke_fill : option string) : image :=
  draw_text im (TextRequest position text (select_font fs font_size) color
                            (stroke_of stroke_width stroke_fill)).

(** The five routines after the main menu are one text apart: the same
    statements with their own category, texts and colours. *)
Definition two_pass_screenshot (c : category)
    (title title_color title_stroke footer footer_color : string)
    (self : generator) (input_path output_path : path) (device_type : string)
  : M unit :=
  (do! print (MsgProcessing c device_type) in
   try_except Exception
     (let! image := image_open input_path in
      let '(width, height) := im_size image in
      let! image := image_convert ModeRGBA image in
      let title_font_size :=
        if startswith device_type "iPhone" then int_times width 0.06
        else int_times width 0.045 in
      let! image :=
        create_overlay_text self image title
          (int_times width 0.05, int_times height 0.08) title_font_size
          title_color "bold" 2 (Some title_stroke) in
      let footer_font_size :=
        if startswith device_type "iPhone" then int_times width 0.035
        else int_times width 0.025 in
      let! image :=
        create_overlay_text self image footer
          (int_times width 0.05, int_times height 0.88) footer_font_size
          footer_color "regular" 1 (Some APP_STORE_BLACK) in
      let! flat := image_convert ModeRGB image in
      do! image_save flat output_path "PNG" 95 in
      print (MsgSaved output_path))
     (fun e => print (MsgError input_path e)))%py.

(** [Image.open] as a function of the file system. *)
Definition open_result (fs : gmap path node) (p : path) : result image :=
  match fs !! p with
  | None => Raise (missing_error fs p)
  | Some Directory => Raise IsADirectoryError
  | Some (ImageFile im) => Ok im
  | Some _ => Raise UnidentifiedImageError
  end.

(** What a routine leaves behind, given the passes it applies to the
    opened image ([passes]) and the image these end in ([final]). *)
Definition routine_outcome (c : category) (device_type : string)
    (input_path output_path : path) (fs : gmap path node)
    (passes : image -> list call) (final : image -> image) : outcome unit :=
  match open_result fs input_path with
  | Raise e =>
      Outcome (Ok tt) fs
        [MsgProcessing c device_type; MsgError input_path e]
        [CallOpen input_path]
  | Ok im =>
      let cs :=
        CallOpen input_path :: CallConvert ModeRGBA
          :: passes im ++ [CallConvert ModeRGB; CallSave output_path "PNG" 95] in
      match writable fs output_path with
      | Ok _ =>
          Outcome (Ok tt) (<[output_path := ImageFile (final im)]> fs)
            [MsgProcessing c device_type; MsgSaved output_path] cs
      | Raise e =>
          Outcome (Ok tt) fs
            [MsgProcessing c device_type; MsgError input_path e] cs
      end
  end.

Definition title_size (device_type : string) (width : Z) : Z :=
  if startswith device_type "iPhone" then int_times width 0.06
  else int_times width 0.045.

Definition footer_size (device_type : string) (width : Z) : Z :=
  if startswith device_type "iPhone" then int_times width 0.035
  else int_times width 0.025.

Definition two_pass_passes (title title_color title_stroke footer
    footer_color device_type : string) (im : image) : list call :=
  [ CallText title (int_times (im_width im) 0.05, int_times (im_height im) 0.08)
      (title_size device_type (im_width im)) title_color "bold" 2
      (Some title_stroke);
    CallText footer (int_times (im_width im) 0.05, int_times (im_height im) 0.88)
      (footer_size device_type (im_width im)) footer_color "regular" 1
      (Some APP_STORE_BLACK) ].

Definition two_pass_final (fs : gmap path node) (title title_color
    title_stroke footer footer_color device_type : string) (im : image)
  : image :=
  let titled :=
    with_text fs (convert ModeRGBA im) title
      (int_times (im_width im) 0.05, int_times (im_height im) 0.08)
      (title_size device_type (im_width im)) title_color 2
      (Some title_stroke) in
  let footed :=
    with_text fs titled footer
      (int_times (im_width im) 0.05, int_times (im_height im) 0.88)
      (footer_size device_type (im_width im)) footer_color 1
      (Some APP_STORE_BLACK) in
  convert ModeRGB footed.

(** The image [add_gradient_overlay] returns for a colour that decodes. *)
Definition faded (im : image) (r g b : Z) (position size : Z * Z) (opacity : Q)
  : image :=
  let overlay :=
    strips r g b opacity (fst position) (snd position) (fst size) (snd size)
           (seqZ 0 (snd size))
           (image_new ModeRGBA (im_size im) (RGBA 0 0 0 0)) in
  convert ModeRGB
    (Image ModeRGBA (im_width im) (im_height im)
       (fun px py => composite_px (im_px (convert ModeRGBA im) px py)
                                  (im_px overlay px py))).

Definition main_title_size (device_type : string) (width : Z) : Z :=
  if startswith device_type "iPhone" then int_times width 0.08
  else int_times width 0.06.

Definition subtitle_size (device_type : string) (width : Z) : Z :=
  if startswith device_type "iPhone" then int_times width 0.045
  else int_times width 0.035.

Definition main_menu_title : string :=
  "Experience Authentic Romanian Card Gaming".
Definition main_menu_subtitle : string := "Jocul Tradițional Românesc".
Definition main_menu_feature : string :=
  "• Authentic Romanian Rules • Premium AI Opponent • Cultural Heritage Design".

Definition main_menu_passes (device_type : string) (im : image) : list call :=
  let width := im_width im in
  let height := im_height im in
  let title_y := int_times height 0.1 in
  [ CallGradient (ColorTuple 0 0 0) (ColorTuple 0 0 0) (0, 0)
      (width, int_times height 0.3) 0.4;
    CallText main_menu_title (int_times width 0.05, title_y)
      (main_title_size device_type width) APP_STORE_WHITE "bold" 2
      (Some APP_STORE_BLACK);
    CallText main_menu_subtitle
      (int_times width 0.05, title_y + main_title_size device_type width + 10)
      (subtitle_size device_type width) ROMANIAN_YELLOW "regular" 1
      (Some APP_STORE_BLACK);
    CallText main_menu_feature (int_times width 0.05, int_times height 0.85)
      (footer_size device_type width) APP_STORE_WHITE "regular" 1
      (Some APP_STORE_BLACK) ].

Definition main_menu_final (fs : gmap path node) (device_type : string)
    (im : image) : image :=
  let width := im_width im in
  let height := im_height im in
  let title_y := int_times height 0.1 in
  let shaded :=
    faded (convert ModeRGBA im) 0 0 0 (0, 0) (width, int_times height 0.3) 0.4 in
  let titled :=
    with_text fs shaded main_menu_title (int_times width 0.05, title_y)
      (main_title_size device_type width) APP_STORE_WHITE 2
      (Some APP_STORE_BLACK) in
  let subtitled :=
    with_text fs titled main_menu_subtitle
      (int_times width 0.05, title_y + main_title_size device_type width + 10)
      (subtitle_size device_type width) ROMANIAN_YELLOW 1
      (Some APP_STORE_BLACK) in
  let featured :=
    with_text fs subtitled main_menu_feature
      (int_times width 0.05, int_times height 0.85)
      (footer_size device_type width) APP_STORE_WHITE 1
      (Some APP_STORE_BLACK) in
  convert ModeRGB featured.

(** The categories in the order of [screenshot_processors], with their
    file names and routines. *)
Definition categories : list category :=
  [MainMenu; Gameplay; Accessibility; CulturalHeritage; Statistics; Victory].

Definition filename_of (c : category) : string :=
  match c with
  | MainMenu => "01_main_menu.png"
  | Gameplay => "02_gameplay.png"
  | Accessibility => "03_accessibility.png"
  | CulturalHeritage => "04_cultural_heritage.png"
  | Statistics => "05_statistics.png"
  | Victory => "06_victory.png"
  end.

Definition processor_of (self : generator) (c : category)
  : path -> path -> string -> M unit :=
  match c with
  | MainMenu => process_main_menu_screenshot self
  | Gameplay => process_gameplay_screenshot self
  | Accessibility => process_accessibility_screenshot self
  | CulturalHeritage => process_cultural_heritage_screenshot self
  | Statistics => process_statistics_screenshot self
  | Victory => process_victory_screenshot self
  end.

(** Title text, title colour, title stroke, footer text and footer colour
    of the five two-pass categories. *)
Definition two_pass_texts (c : category)
  : string * string * string * string * string :=
  match c with
  | Gameplay =>
      ("7s Beat Any Card - Traditional Romanian Rules",
       ROMANIAN_RED, APP_STORE_WHITE,
       "Șaptele bate orice carte • Authentic Romanian Strategy",
       APP_STORE_WHITE)
  | Accessibility =>
      ("Inclusive Gaming for All Romanian Heritage Enthusiasts",
       ROMANIAN_BLUE, APP_STORE_WHITE,
       "VoiceOver • Dynamic Type • High Contrast • Cultural Respect",
       APP_STORE_WHITE)
  | CulturalHeritage =>
      ("Preserving Romanian Card Game Traditions",
       ROMANIAN_YELLOW, APP_STORE_BLACK,
       "Păstrăm tradițiile jocurilor românești cu mândrie",
       APP_STORE_WHITE)
  | Statistics =>
      ("Track Your Romanian Card Game Journey",
       ROMANIAN_BLUE, APP_STORE_WHITE,
       "Progress • Achievements • Cultural Milestones",
       APP_STORE_WHITE)
  | _ =>
      ("Celebrate Your Romanian Heritage Victories",
       ROMANIAN_RED, APP_STORE_WHITE,
       "Felicitări! Ai câștigat cu stilul românesc!",
       ROMANIAN_YELLOW)
  end.

(** The compositor calls of a category, between the conversion to [RGBA]
    and the conversion back. *)
Definition category_passes (c : category) (device_type : string) (im : image)
  : list call :=
  match c with
  | MainMenu => main_menu_passes device_type im
  | _ =>
      let '(title, title_color, title_stroke, footer, footer_color) :=
        two_pass_texts c in
      two_pass_passes title title_color title_stroke footer footer_color
                      device_type im
  end.

(** The image a category saves. *)
Definition category_final (fs : gmap path node) (c : category)
    (device_type : string) (im : image) : image :=
  match c with
  | MainMenu => main_menu_final fs device_type im
  | _ =>
      let '(title, title_color, title_stroke, footer, footer_color) :=
        two_pass_texts c in
      two_pass_final fs title title_color title_stroke footer footer_color
                     device_type im
  end.

Definition is_gradient (c : call) : bool :=
  match c with
  | CallGradient _ _ _ _ _ => true
  | _ => false
  end.

Definition is_text (c : call) : bool :=
  match c with
  | CallText _ _ _ _ _ _ _ => true
  | _ => false
  end.

(** The font size of the first text pass among some calls: the title. *)
Fixpoint first_text_size (cs : list call) : option Z :=
  match cs with
  | [] => None
  | CallText _ _ font_size _ _ _ _ :: _ => Some font_size
  | _ :: rest => first_text_size rest
  end.

(** The paths of a device and of a category below it. *)
Definition raw_dir_of (self : generator) (device_type : string) : path :=
  base_dir self ++ [device_type; "Raw"%string].

Definition processed_dir_of (self : generator) (device_type : string) : path :=
  base_dir self ++ [device_type; "Processed"%string].

Definition raw_path_of (self : generator) (device_type : string) (c : category)
  : path :=
  base_dir self ++ [device_type; "Raw"%string; filename_of c].

Definition processed_path_of (self : generator) (device_type : string)
    (c : category) : path :=
  base_dir self ++ [device_type; "Processed"%string; filename_of c].

(** The loop of [process_screenshots_for_device] over some categories. *)
Definition process_categories (self : generator) (device_type : string)
    (cs : list category) : M unit :=
  for_each_M
    (process_one (raw_dir_of self device_type)
                 (processed_dir_of self device_type) device_type)
    (List.map (fun c => (filename_of c, processor_of self c)) cs).

(** The loop of [process_all_screenshots] over some device types. *)
Definition process_devices (self : generator) (ds : list string) : M unit :=
  for_each_M
    (fun device_type =>
       do! print (MsgDevice device_type) in
       process_screenshots_for_device self device_type)%py
    ds.


(** Two file systems that differ at most in the JSON document stored at
    [meta]. *)
Definition same_but_metadata (meta : path) (fs1 fs2 : gmap path node) : Prop :=
  forall p,
    fs1 !! p = fs2 !! p
    \/ (p = meta /\ exists j1 j2, fs1 !! p = Some (JsonFile j1)
                                  /\ fs2 !! p = Some (JsonFile j2)).

(** A statement that cannot tell such file systems apart: same result,
    same output, same calls, and file systems that still differ at most
    in that document. *)
Definition blind_to_metadata {A} (meta : path) (m : M A) : Prop :=
  forall fs1 fs2, same_but_metadata meta fs1 fs2 ->
    res (m fs1) = res (m fs2)
    /\ printed (m fs1) = printed (m fs2)
    /\ called (m fs1) = called (m fs2)
    /\ same_but_metadata meta (fs_after (m fs1)) (fs_after (m fs2)).

(** The paths the batch run may write: the [Processed] directory of each
    of the five devices and the six files below it. *)
Definition processed_area (base : path) (p : path) : Prop :=
  exists d, d ∈ device_types
    /\ (p = base ++ [d; "Processed"%string]
        \/ exists c, p = base ++ [d; "Processed"%string; filename_of c]).

(** A statement that writes only within [area], and there only puts a
    directory or an image where no directory was. *)
Definition writes_within {A} (area : path -> Prop) (m : M A) : Prop :=
  forall fs p,
    fs_after (m fs) !! p = fs !! p
    \/ (area p /\ fs !! p <> Some Directory
        /\ (fs_after (m fs) !! p = Some Directory
            \/ exists im, fs_after (m fs) !! p = Some (ImageFile im))).

(** The image one turn of the loop of [process_screenshots_for_device]
    writes for a category, if it writes one: the raw file is there, opens
    as an image, and the output can be written. *)
Definition written (self : generator) (d : string) (c : category)
    (fs : gmap path node) : option image :=
  if bool_decide (is_Some (fs !! raw_path_of self d c)) then
    match open_result fs (raw_path_of self d c),
          writable fs (processed_path_of self d c) with
    | Ok im, Ok _ => Some (category_final fs c d im)
    | _, _ => None
    end
  else None.

(** What a turn of the loop for a category looks at: the raw file, whether
    the output can be written, and the font files. *)
Definition same_inputs (self : generator) (d : string) (c : category)
    (h g : gmap path node) : Prop :=
  h !! raw_path_of self d c = g !! raw_path_of self d c
  /\ writable h (processed_path_of self d c)
     = writable g (processed_path_of self d c)
  /\ (forall q, In q font_paths -> h !! q = g !! q).

(** What the per-device routine looks at: the device directory and the
    directories on the way to it, its [Raw] and [Processed] directories,
    the six raw files, the six processed paths and the font files. *)
Definition same_reads (self : generator) (d : string)
    (h g : gmap path node) : Prop :=
  (forall q, q `prefix_of` (base_dir self ++ [d]) -> h !! q = g !! q)
  /\ h !! raw_dir_of self d = g !! raw_dir_of self d
  /\ h !! processed_dir_of self d = g !! processed_dir_of self d
  /\ (forall c, h !! raw_path_of self d c = g !! raw_path_of self d c)
  /\ (forall c, h !! processed_path_of self d c
                = g !! processed_path_of self d c)
  /\ (forall q, In q font_paths -> h !! q = g !! q).

(** The paths the per-device routine looks at. *)
Definition read_by (self : generator) (d : string) (p : path) : Prop :=
  p `prefix_of` (base_dir self ++ [d])
  \/ p = raw_dir_of self d
  \/ p = processed_dir_of self d
  \/ (exists c, p = raw_path_of self d c)
  \/ (exists c, p = processed_path_of self d c)
  \/ In p font_paths.

(** * Properties *)

(** ** The gradient layer *)

(** A colour either decodes, to the same channels whatever the alpha, or
    makes every strip raise. *)
Lemma fill_color_cases (c : color_arg) :
  (exists r g b, forall a, fill_color c a = Ok (RGBA r g b a))
  \/ (forall a, fill_color c a = Raise ValueError).
Proof.
  destruct c as [r g b|s]; simpl.
  - left. by exists r, g, b.
  - destruct (int16 (hex_slice s 0)) as [r|]; [|by right].
    destruct (int16 (hex_slice s 2)) as [g|]; [|by right].
    destruct (int16 (hex_slice s 4)) as [b|]; [|by right].
    left. by exists r, g, b.
Qed.

Lemma for_each_strips_decoded c r g b opacity x y width height items overlay :
  (forall a, fill_color c a = Ok (RGBA r g b a)) ->
  for_each (gradient_strip c opacity x y width height) items overlay
  = Ok (strips r g b opacity x y width height items overlay).
Proof.
  intros Hc. revert overlay.
  induction items as [|i items IH]; intros overlay; simpl; [done|].
  unfold gradient_strip at 1. rewrite Hc. simpl. apply IH.
Qed.

Lemma strips_snoc r g b opacity x y width height items i overlay :
  strips r g b opacity x y width height (items ++ [i]) overlay
  = draw_rectangle (strips r g b opacity x y width height items overlay)
      (x, y + i, x + width, y + i + 1)
      (RGBA r g b (gradient_alpha opacity height i)).
Proof. unfold strips. by rewrite fold_left_app. Qed.

Lemma strips_shape r g b opacity x y width height items overlay :
  let ov := strips r g b opacity x y width height items overlay in
  im_mode ov = im_mode overlay /\ im_width ov = im_width overlay
  /\ im_height ov = im_height overlay.
Proof.
  revert overlay. induction items as [|i items IH]; intros overlay; simpl; [done|].
  destruct (IH (draw_rectangle overlay (x, y + i, x + width, y + i + 1)
                  (RGBA r g b (gradient_alpha opacity height i))))
    as (Hm & Hw & Hh).
  unfold strips in *. simpl in *. by rewrite Hm, Hw, Hh.
Qed.

Lemma in_box_spec x0 y0 x1 y1 px py :
  in_box (x0, y0, x1, y1) px py = true <-> x0 <= px <= x1 /\ y0 <= py <= y1.
Proof. unfold in_box. rewrite !andb_true_iff, !Z.leb_le. lia. Qed.

Lemma in_image_spec im px py :
  in_image im px py = true <-> 0 <= px < im_width im /\ 0 <= py < im_height im.
Proof.
  unfold in_image. rewrite !andb_true_iff, !Z.leb_le, !Z.ltb_lt. lia.
Qed.

(** The layer after [n] strips on a blank layer: the band of rows
    [y .. y + n] holds the fill, row [y + i] with the alpha of strip [i] and
    the row after the last strip with the alpha of the last strip; the
    rest is transparent. *)
Lemma strips_px r g b opacity x y width height W H (n : nat) px py :
  im_px (strips r g b opacity x y width height (seqZ 0 (Z.of_nat n))
           (image_new ModeRGBA (W, H) (RGBA 0 0 0 0))) px py
  = if bool_decide (0 < Z.of_nat n /\ x <= px <= x + width
                    /\ y <= py <= y + Z.of_nat n
                    /\ 0 <= px < W /\ 0 <= py < H)
    then RGBA r g b (gradient_alpha opacity height
                       (Z.min (py - y) (Z.of_nat n - 1)))
    else RGBA 0 0 0 0.
Proof.
  induction n as [|n IH].
  - rewrite seqZ_nil by done. rewrite bool_decide_eq_false_2 by lia. done.
  - rewrite seqZ_S, strips_snoc. cbn [im_px draw_rectangle].
    rewrite IH. clear IH.
    set (ov := strips _ _ _ _ _ _ _ _ _ _).
    destruct (strips_shape r g b opacity x y width height
                (seqZ 0 (Z.of_nat n))
                (image_new ModeRGBA (W, H) (RGBA 0 0 0 0))) as (_ & Hw & Hh).
    fold ov in Hw, Hh. simpl in Hw, Hh.
    destruct (in_box _ px py && in_image ov px py) eqn:Hin.
    + apply andb_true_iff in Hin as [Hb Hi].
      apply in_box_spec in Hb. apply in_image_spec in Hi.
      rewrite Hw, Hh in Hi.
      rewrite bool_decide_eq_true_2 by lia.
      do 2 f_equal. lia.
    + assert (~ ((0 + Z.of_nat n <= py - y <= 0 + Z.of_nat n + 1)
                 /\ x <= px <= x + width /\ 0 <= px < W /\ 0 <= py < H)) as Hout.
      { intros (Hrow & Hcol & Hx & Hy).
        apply andb_false_iff in Hin as [Hb | Hi].
        - apply not_true_iff_false in Hb. apply Hb, in_box_spec. lia.
        - apply not_true_iff_false in Hi. apply Hi, in_image_spec.
          rewrite Hw, Hh. lia. }
      repeat case_bool_decide; try lia; try done.
      do 2 f_equal. lia.
Qed.

Lemma fill_color_decoded c r g b a0 :
  fill_color c a0 = Ok (RGBA r g b a0) ->
  forall a, fill_color c a = Ok (RGBA r g b a).
Proof.
  intros H a. destruct (fill_color_cases c) as [(r' & g' & b' & Hc) | Hc].
  - rewrite Hc in H. rewrite Hc. by simplify_eq.
  - by rewrite Hc in H.
Qed.

Lemma seqZ_to_nat (n : Z) : seqZ 0 n = seqZ 0 (Z.of_nat (Z.to_nat n)).
Proof.
  destruct (Z_le_gt_dec 0 n).
  - by rewrite Z2Nat.id.
  - rewrite !seqZ_nil; [done | lia | lia].
Qed.

Lemma gradient_overlay_decoded W H c r g b x y width height opacity :
  (forall a, fill_color c a = Ok (RGBA r g b a)) ->
  gradient_overlay (W, H) c (x, y) (width, height) opacity
  = Ok (strips r g b opacity x y width height (seqZ 0 height)
          (image_new ModeRGBA (W, H) (RGBA 0 0 0 0))).
Proof. intros Hc. unfold gradient_overlay. by apply for_each_strips_decoded. Qed.

Lemma gradient_overlay_px W H r g b opacity x y width height px py :
  im_px (strips r g b opacity x y width height (seqZ 0 height)
           (image_new ModeRGBA (W, H) (RGBA 0 0 0 0))) px py
  = if bool_decide (0 < height /\ x <= px <= x + width
                    /\ y <= py <= y + height
                    /\ 0 <= px < W /\ 0 <= py < H)
    then RGBA r g b (gradient_alpha opacity height
                       (Z.min (py - y) (height - 1)))
    else RGBA 0 0 0 0.
Proof.
  rewrite seqZ_to_nat, strips_px.
  destruct (Z_le_gt_dec 0 height).
  - by rewrite Z2Nat.id.
  - rewrite !bool_decide_eq_false_2; [done | lia | lia].
Qed.

(** When the colour does not decode the first strip raises; without a
    strip nothing is decoded. *)
Lemma gradient_overlay_undecoded W H c x y width height opacity :
  (forall a, fill_color c a = Raise ValueError) ->
  gradient_overlay (W, H) c (x, y) (width, height) opacity
  = if 0 <? height then Raise ValueError
    else Ok (image_new ModeRGBA (W, H) (RGBA 0 0 0 0)).
Proof.
  intros Hc. unfold gradient_overlay.
  destruct (Z.ltb_spec 0 height).
  - rewrite seqZ_cons by done. simpl. unfold gradient_strip. by rewrite Hc.
  - by rewrite seqZ_nil.
Qed.

Lemma alpha_composite_same_size im overlay :
  im_mode overlay = ModeRGBA -> im_width overlay = im_width im ->
  im_height overlay = im_height im ->
  alpha_composite (convert ModeRGBA im) overlay
  = Ok (Image ModeRGBA (im_width im) (im_height im)
          (fun px py => composite_px (im_px (convert ModeRGBA im) px py)
                                     (im_px overlay px py))).
Proof.
  intros Hm Hw Hh. unfold alpha_composite.
  assert (im_mode (convert ModeRGBA im) = ModeRGBA) as ->.
  { unfold convert. destruct (im_mode im) eqn:E; simpl; auto. }
  assert (im_width (convert ModeRGBA im) = im_width im) as ->
    by (unfold convert; by destruct (im_mode im)).
  assert (im_height (convert ModeRGBA im) = im_height im) as ->
    by (unfold convert; by destruct (im_mode im)).
  rewrite Hm, Hw, Hh, !Z.eqb_refl. done.
Qed.

Lemma add_gradient_overlay_decoded im c e r g b position size opacity :
  (forall a, fill_color c a = Ok (RGBA r g b a)) ->
  add_gradient_overlay im c e position size opacity
  = Ok (faded im r g b position size opacity).
Proof.
  intros Hc. destruct position as [x y], size as [width height].
  unfold add_gradient_overlay, im_size.
  rewrite (gradient_overlay_decoded _ _ _ r g b) by done. cbn [rbind].
  destruct (strips_shape r g b opacity x y width height (seqZ 0 height)
              (image_new ModeRGBA (im_width im, im_height im) (RGBA 0 0 0 0)))
    as (Hm & Hw & Hh).
  simpl in Hm, Hw, Hh.
  rewrite alpha_composite_same_size by done. done.
Qed.

(** [add_gradient_overlay] raises only when a strip has a colour that does
    not decode; the layer and the image always have one size. *)
Lemma add_gradient_overlay_cases im c e position size opacity :
  (exists r g b, (forall a, fill_color c a = Ok (RGBA r g b a))
     /\ add_gradient_overlay im c e position size opacity
        = Ok (faded im r g b position size opacity))
  \/ ((forall a, fill_color c a = Raise ValueError)
      /\ add_gradient_overlay im c e position size opacity
         = if 0 <? snd size then Raise ValueError
           else Ok (faded im 0 0 0 position size opacity)).
Proof.
  destruct (fill_color_cases c) as [(r & g & b & Hc) | Hc].
  - left. exists r, g, b. split; [done|]. by apply add_gradient_overlay_decoded.
  - right. split; [done|].
    destruct position as [x y], size as [width height].
    unfold add_gradient_overlay, im_size.
    rewrite gradient_overlay_undecoded by done. cbn [snd].
    destruct (Z.ltb_spec 0 height); [done|]. cbn [rbind].
    rewrite alpha_composite_same_size by done.
    unfold faded. cbn [rbind fst snd]. by rewrite seqZ_nil.
Qed.

Lemma faded_px im r g b x y width height opacity px py :
  im_px (faded im r g b (x, y) (width, height) opacity) px py
  = opaque
      (composite_px (im_px (convert ModeRGBA im) px py)
         (if bool_decide (0 < height /\ x <= px <= x + width
                          /\ y <= py <= y + height
                          /\ 0 <= px < im_width im /\ 0 <= py < im_height im)
          then RGBA r g b (gradient_alpha opacity height
                             (Z.min (py - y) (height - 1)))
          else RGBA 0 0 0 0)).
Proof.
  unfold faded, im_size. cbn [im_px convert im_mode fst snd].
  by rewrite gradient_overlay_px.
Qed.

Lemma opaque_convert_px im px py :
  opaque (im_px (convert ModeRGBA im) px py) = opaque (im_px im px py).
Proof. unfold convert. by destruct (im_mode im). Qed.

(** ** Truncation and the alpha of a strip *)









(** ** The gradient: rows of the layer and frame of the result *)



(** ** Text passes *)

Lemma first_existing_run (paths : list path) (fs : gmap path node) :
  first_existing paths fs
  = Outcome (Ok (List.find (fun p => bool_decide (is_Some (fs !! p))) paths))
            fs [] [].
Proof.
  induction paths as [|p rest IH]; [done|].
  cbn [first_existing List.find]. unfold bind, path_exists.
  cbn [res fs_after printed called].
  destruct (bool_decide (is_Some (fs !! p))); [done|].
  rewrite IH. done.
Qed.

Lemma bind_ok {A B} (m : M A) (k : A -> M B) fs a fs' out cs :
  m fs = Outcome (Ok a) fs' out cs ->
  bind m k fs = and_then (Outcome (Ok a) fs' out cs) (k a fs').
Proof. intros E. unfold bind. by rewrite E. Qed.

Lemma bind_raise {A B} (m : M A) (k : A -> M B) fs e fs' out cs :
  m fs = Outcome (Raise e) fs' out cs ->
  bind m k fs = Outcome (Raise e) fs' out cs.
Proof. intros E. unfold bind. by rewrite E. Qed.

Lemma try_except_ok {A} classes (body : M A) handler fs a fs' out cs :
  body fs = Outcome (Ok a) fs' out cs ->
  try_except classes body handler fs = Outcome (Ok a) fs' out cs.
Proof. intros E. unfold try_except. by rewrite E. Qed.

(** The [try] block of [create_overlay_text] always yields a font. *)
Lemma select_font_run self weight font_size fs :
  try_except Exception
    (let! font_path := get_font_path self weight in
     match font_path with
     | Some file => image_font_truetype file font_size
     | None => ret DefaultFont
     end)%py
    (fun _ => ret DefaultFont) fs
  = Outcome (Ok (select_font fs font_size)) fs [] [].
Proof.
  unfold try_except, get_font_path, select_font.
  erewrite bind_ok by apply first_existing_run.
  destruct (List.find _ font_paths) as [file|]; [|done].
  unfold image_font_truetype.
  by destruct (truetype_loads file font_size).
Qed.

(** A text pass always returns: it changes neither the file system nor
    the console, and hands back the image with the text drawn in the
    selected font. *)
Lemma create_overlay_text_run self im text position font_size color weight
    stroke_width stroke_fill fs :
  create_overlay_text self im text position font_size color weight
                      stroke_width stroke_fill fs
  = Outcome (Ok (with_text fs im text position font_size color
                           stroke_width stroke_fill))
            fs []
            [CallText text position font_size color weight
                      stroke_width stroke_fill].
Proof.
  unfold create_overlay_text, with_text, stroke_of.
  erewrite bind_ok by reflexivity.
  erewrite bind_ok by apply select_font_run.
  by destruct (0 <? stroke_width), (truthy stroke_fill).
Qed.

(** ** The routines as functions of the file system *)

Lemma image_open_run p fs :
  image_open p fs = Outcome (open_result fs p) fs [] [CallOpen p].
Proof.
  unfold image_open, open_result.
  by destruct (fs !! p) as [[]|].
Qed.

Lemma image_save_run im p format quality fs :
  image_save im p format quality fs
  = match writable fs p with
    | Ok _ => Outcome (Ok tt) (<[p := ImageFile im]> fs) []
                      [CallSave p format quality]
    | Raise e => Outcome (Raise e) fs [] [CallSave p format quality]
    end.
Proof. done. Qed.

Lemma self_add_gradient_overlay_tuple_run self im r g b e position size
    opacity fs :
  self_add_gradient_overlay self im (ColorTuple r g b) e position size opacity fs
  = Outcome (Ok (faded im r g b position size opacity)) fs []
            [CallGradient (ColorTuple r g b) e position size opacity].
Proof.
  unfold self_add_gradient_overlay.
  erewrite bind_ok by reflexivity.
  unfold lift. by rewrite (add_gradient_overlay_decoded _ _ _ r g b).
Qed.

Lemma bind_step {A B} (m : M A) (k : A -> M B) fs a fs' out cs r fs'' out' cs' :
  m fs = Outcome (Ok a) fs' out cs ->
  k a fs' = Outcome r fs'' out' cs' ->
  bind m k fs = Outcome r fs'' (out ++ out') (cs ++ cs').
Proof. intros E E'. unfold bind. rewrite E. cbn. by rewrite E'. Qed.

Lemma try_except_step {A} (body : M A) handler fs e fs' out cs r fs'' out' cs' :
  body fs = Outcome (Raise e) fs' out cs ->
  handler e fs' = Outcome r fs'' out' cs' ->
  try_except Exception body handler fs
  = Outcome r fs'' (out ++ out') (cs ++ cs').
Proof. intros E E'. unfold try_except. rewrite E. cbn. by rewrite E'. Qed.

Lemma print_run m fs : print m fs = Outcome (Ok tt) fs [m] [].
Proof. done. Qed.

Lemma image_convert_run m im fs :
  image_convert m im fs = Outcome (Ok (convert m im)) fs [] [CallConvert m].
Proof. done. Qed.

(** Runs the statements of a routine one after the other. *)
Ltac run_premise :=
  first
    [ apply create_overlay_text_run
    | apply self_add_gradient_overlay_tuple_run
    | apply print_run
    | apply image_convert_run
    | rewrite image_open_run;
      match goal with H : open_result _ _ = _ |- _ => rewrite H end;
      reflexivity
    | rewrite image_save_run;
      match goal with H : writable _ _ = _ |- _ => rewrite H end;
      reflexivity ].

Ltac run :=
  cbn beta iota delta [im_size];
  lazymatch goal with
  | |- bind _ _ _ = _ =>
      first [ eapply bind_step; [run_premise | run]
            | eapply bind_raise; run_premise ]
  | |- try_except _ _ _ _ = _ =>
      first [ eapply try_except_ok; run
            | eapply try_except_step; [run | run] ]
  | |- _ => run_premise
  end.

Lemma two_pass_run c title title_color title_stroke footer footer_color
    self input_path output_path device_type fs :
  two_pass_screenshot c title title_color title_stroke footer footer_color
                      self input_path output_path device_type fs
  = routine_outcome c device_type input_path output_path fs
      (two_pass_passes title title_color title_stroke footer footer_color
                       device_type)
      (two_pass_final fs title title_color title_stroke footer footer_color
                      device_type).
Proof.
  unfold two_pass_screenshot, routine_outcome.
  destruct (open_result fs input_path) as [im|e] eqn:Hopen.
  - destruct (writable fs output_path) as [[]|e] eqn:Hw.
    + etransitivity; [run | reflexivity].
    + etransitivity; [run | reflexivity].
  - etransitivity; [run | reflexivity].
Qed.

Lemma main_menu_run self input_path output_path device_type fs :
  process_main_menu_screenshot self input_path output_path device_type fs
  = routine_outcome MainMenu device_type input_path output_path fs
      (main_menu_passes device_type) (main_menu_final fs device_type).
Proof.
  unfold process_main_menu_screenshot, routine_outcome.
  destruct (open_result fs input_path) as [im|e] eqn:Hopen.
  - destruct (writable fs output_path) as [[]|e] eqn:Hw.
    + etransitivity; [run | reflexivity].
    + etransitivity; [run | reflexivity].
  - etransitivity; [run | reflexivity].
Qed.

(** The five other routines are instances of [two_pass_screenshot]. *)
Lemma process_gameplay_screenshot_eq :
  process_gameplay_screenshot
  = two_pass_screenshot Gameplay
      "7s Beat Any Card - Traditional Romanian Rules"
      ROMANIAN_RED APP_STORE_WHITE
      "Șaptele bate orice carte • Authentic Romanian Strategy"
      APP_STORE_WHITE.
Proof. reflexivity. Qed.

Lemma process_accessibility_screenshot_eq :
  process_accessibility_screenshot
  = two_pass_screenshot Accessibility
      "Inclusive Gaming for All Romanian Heritage Enthusiasts"
      ROMANIAN_BLUE APP_STORE_WHITE
      "VoiceOver • Dynamic Type • High Contrast • Cultural Respect"
      APP_STORE_WHITE.
Proof. reflexivity. Qed.

Lemma process_cultural_heritage_screenshot_eq :
  process_cultural_heritage_screenshot
  = two_pass_screenshot CulturalHeritage
      "Preserving Romanian Card Game Traditions"
      ROMANIAN_YELLOW APP_STORE_BLACK
      "Păstrăm tradițiile jocurilor românești cu mândrie"
      APP_STORE_WHITE.
Proof. reflexivity. Qed.

Lemma process_statistics_screenshot_eq :
  process_statistics_screenshot
  = two_pass_screenshot Statistics
      "Track Your Romanian Card Game Journey"
      ROMANIAN_BLUE APP_STORE_WHITE
      "Progress • Achievements • Cultural Milestones"
      APP_STORE_WHITE.
Proof. reflexivity. Qed.

Lemma process_victory_screenshot_eq :
  process_victory_screenshot
  = two_pass_screenshot Victory
      "Celebrate Your Romanian Heritage Victories"
      ROMANIAN_RED APP_STORE_WHITE
      "Felicitări! Ai câștigat cu stilul românesc!"
      ROMANIAN_YELLOW.
Proof. reflexivity. Qed.

Lemma screenshot_processors_table self :
  screenshot_processors self
  = List.map (fun c => (filename_of c, processor_of self c)) categories.
Proof. reflexivity. Qed.

(** Every routine, as a function of the file system. *)
Lemma routine_run self c input_path output_path device_type fs :
  processor_of self c input_path output_path device_type fs
  = routine_outcome c device_type input_path output_path fs
      (category_passes c device_type) (category_final fs c device_type).
Proof.
  destruct c; cbn [processor_of category_passes category_final two_pass_texts].
  - apply main_menu_run.
  - rewrite process_gameplay_screenshot_eq. apply two_pass_run.
  - rewrite process_accessibility_screenshot_eq. apply two_pass_run.
  - rewrite process_cultural_heritage_screenshot_eq. apply two_pass_run.
  - rewrite process_statistics_screenshot_eq. apply two_pass_run.
  - rewrite process_victory_screenshot_eq. apply two_pass_run.
Qed.

Lemma routine_outcome_res c d input_path output_path fs passes final :
  res (routine_outcome c d input_path output_path fs passes final) = Ok tt.
Proof.
  unfold routine_outcome.
  by destruct (open_result fs input_path), (writable fs output_path) as [[]|].
Qed.

Lemma routine_outcome_frame c d input_path output_path fs passes final p :
  p <> output_path ->
  fs_after (routine_outcome c d input_path output_path fs passes final) !! p
  = fs !! p.
Proof.
  intros Hp. unfold routine_outcome.
  destruct (open_result fs input_path); [|done].
  destruct (writable fs output_path) as [[]|]; [|done].
  cbn [fs_after]. by rewrite lookup_insert_ne.
Qed.

(** ** Sizes *)

Lemma convert_shape m im :
  im_width (convert m im) = im_width im
  /\ im_height (convert m im) = im_height im
  /\ im_mode (convert m im) = m.
Proof. unfold convert. destruct m, (im_mode im) eqn:E; simpl; auto. Qed.

Lemma category_final_shape fs c device_type im :
  im_width (category_final fs c device_type im) = im_width im
  /\ im_height (category_final fs c device_type im) = im_height im
  /\ im_mode (category_final fs c device_type im) = ModeRGB.
Proof.
  destruct (convert_shape ModeRGBA im) as (Hw & Hh & _).
  destruct c; cbn; rewrite ?Hw, ?Hh; done.
Qed.

(** C2. For each of the six categories and any device label, when the raw
    file is an image the routine returns and changes no path other than
    the output path. When the save goes through it reports the save and
    leaves at the output path an image of the width and height of the
    input; when the save raises (an I/O failure, caught by the routine) it
    reports the error and the file system is as before. *)
Theorem processed_image_keeps_size self c input_path output_path device_type
    fs im :
  fs !! input_path = Some (ImageFile im) ->
  let o := processor_of self c input_path output_path device_type fs in
  res o = Ok tt
  /\ (forall p, p <> output_path -> fs_after o !! p = fs !! p)
  /\ match writable fs output_path with
     | Ok _ =>
         printed o = [MsgProcessing c device_type; MsgSaved output_path]
         /\ exists out, fs_after o !! output_path = Some (ImageFile out)
              /\ im_width out = im_width im /\ im_height out = im_height im
     | Raise e =>
         printed o = [MsgProcessing c device_type; MsgError input_path e]
         /\ fs_after o = fs
     end.
Proof.
  intros Hin. cbn zeta. rewrite routine_run.
  split; [apply routine_outcome_res|].
  split; [intros p Hp; by apply routine_outcome_frame|].
  unfold routine_outcome, open_result. rewrite Hin.
  destruct (writable fs output_path) as [[]|e]; cbn [printed fs_after].
  - split; [done|]. eexists. split; [apply lookup_insert_eq|].
    destruct (category_final_shape fs c device_type im) as (? & ? & _). done.
  - done.
Qed.

(** ** Font sizes *)

Lemma int_times_div (n : Z) (f : Q) :
  0 <= n -> 0 <= Qnum f -> int_times n f = n * Qnum f / Z.pos (Qden f).
Proof.
  intros Hn Hf. unfold int_times, py_int. destruct f as [a b]. simpl in *.
  rewrite Z.quot_div_nonneg by lia. done.
Qed.

Lemma first_text_size_app (cs rest : list call) (size : Z) :
  first_text_size cs = Some size -> first_text_size (cs ++ rest) = Some size.
Proof.
  induction cs as [|c cs IH]; [done|].
  destruct c; simpl; auto.
Qed.

(** C3, amended. The title font size a routine passes on is the product
    of the image width and the fraction of its tier, truncated: 0.08 for
    the main menu and 0.06 for the other five categories when the label
    starts with [iPhone], 0.06 and 0.045 otherwise. *)
Theorem title_font_size_truncated self c input_path output_path device_type
    fs im :
  fs !! input_path = Some (ImageFile im) ->
  0 <= im_width im ->
  first_text_size
    (called (processor_of self c input_path output_path device_type fs))
  = Some (match c, startswith device_type "iPhone" with
          | MainMenu, true => im_width im * 8 / 100
          | MainMenu, false => im_width im * 6 / 100
          | _, true => im_width im * 6 / 100
          | _, false => im_width im * 45 / 1000
          end).
Proof.
  intros Hin Hw. rewrite routine_run. unfold routine_outcome, open_result.
  rewrite Hin.
  assert (first_text_size (category_passes c device_type im)
          = Some (match c, startswith device_type "iPhone" with
                  | MainMenu, true => im_width im * 8 / 100
                  | MainMenu, false => im_width im * 6 / 100
                  | _, true => im_width im * 6 / 100
                  | _, false => im_width im * 45 / 1000
                  end)) as Hfirst.
  { destruct c; cbn [category_passes two_pass_texts main_menu_passes
                     two_pass_passes first_text_size];
      unfold main_title_size, title_size;
      destruct (startswith device_type "iPhone");
      rewrite int_times_div by (done || (simpl; lia)); reflexivity. }
  destruct (writable fs output_path) as [[]|e]; cbn [called first_text_size];
    by apply first_text_size_app.
Qed.

(** ** The passes of a routine *)

(** C5, amended. On an image, a routine opens it, converts it to [RGBA],
    applies the passes of its category, converts to [RGB] and saves as PNG
    with quality 95. The passes are a bold title and a footer for five
    categories; the main menu has a gradient first and a subtitle between
    title and footer, three text passes in all. *)
Theorem category_calls self c input_path output_path device_type fs im :
  fs !! input_path = Some (ImageFile im) ->
  let cs :=
    called (processor_of self c input_path output_path device_type fs) in
  cs = CallOpen input_path :: CallConvert ModeRGBA
         :: category_passes c device_type im
         ++ [CallConvert ModeRGB; CallSave output_path "PNG" 95]
  /\ length (List.filter is_gradient cs)
     = match c with MainMenu => 1%nat | _ => 0%nat end
  /\ length (List.filter is_text cs)
     = match c with MainMenu => 3%nat | _ => 2%nat end
  /\ match c with
     | MainMenu =>
         exists g t1 t2 t3,
           category_passes c device_type im = [g; t1; t2; t3]
           /\ is_gradient g = true /\ is_text t1 = true
           /\ is_text t2 = true /\ is_text t3 = true
     | _ =>
         let '(title, title_color, title_stroke, footer, footer_color) :=
           two_pass_texts c in
         exists p1 s1 p2 s2,
           category_passes c device_type im
           = [ CallText title p1 s1 title_color "bold" 2 (Some title_stroke);
               CallText footer p2 s2 footer_color "regular" 1
                        (Some APP_STORE_BLACK) ]
     end.
Proof.
  intros Hin. cbn zeta. rewrite routine_run. unfold routine_outcome, open_result.
  rewrite Hin.
  assert (called
            match writable fs output_path with
            | Ok _ =>
                Outcome (Ok tt)
                  (<[output_path := ImageFile (category_final fs c device_type im)]> fs)
                  [MsgProcessing c device_type; MsgSaved output_path]
                  (CallOpen input_path :: CallConvert ModeRGBA
                     :: category_passes c device_type im
                     ++ [CallConvert ModeRGB; CallSave output_path "PNG" 95])
            | Raise e =>
                Outcome (Ok tt) fs
                  [MsgProcessing c device_type; MsgError input_path e]
                  (CallOpen input_path :: CallConvert ModeRGBA
                     :: category_passes c device_type im
                     ++ [CallConvert ModeRGB; CallSave output_path "PNG" 95])
            end
          = CallOpen input_path :: CallConvert ModeRGBA
              :: category_passes c device_type im
              ++ [CallConvert ModeRGB; CallSave output_path "PNG" 95]) as ->
    by (by destruct (writable fs output_path) as [[]|e]).
  split; [done|].
  destruct c; cbn; repeat split; eauto 10.
Qed.

(** ** Fonts *)



(** A font file that exists but does not load is replaced in the same
    way. *)
Lemma unloadable_font_falls_back fs font_size :
  (forall p, In p font_paths -> truetype_loads p font_size = false) ->
  select_font fs font_size = DefaultFont.
Proof.
  intros Hbad. unfold select_font.
  destruct (List.find _ font_paths) as [file|] eqn:E; [|done].
  apply List.find_some in E as [Hin _]. by rewrite Hbad.
Qed.

(** C9. The weight plays no part: font selection is the same for any two
    weights, and so are the result, the image, the file system and the
    console output of the text pass. *)
Theorem weight_is_ignored self im text position font_size color weight1 weight2
    stroke_width stroke_fill fs :
  get_font_path self weight1 = get_font_path self weight2
  /\ res (create_overlay_text self im text position font_size color weight1
                              stroke_width stroke_fill fs)
     = res (create_overlay_text self im text position font_size color weight2
                                stroke_width stroke_fill fs)
  /\ fs_after (create_overlay_text self im text position font_size color
                                   weight1 stroke_width stroke_fill fs)
     = fs_after (create_overlay_text self im text position font_size color
                                     weight2 stroke_width stroke_fill fs)
  /\ printed (create_overlay_text self im text position font_size color
                                  weight1 stroke_width stroke_fill fs)
     = printed (create_overlay_text self im text position font_size color
                                    weight2 stroke_width stroke_fill fs).
Proof. split; [done|]. by rewrite !create_overlay_text_run. Qed.

(** ** One device *)

Lemma filename_of_inj c c' : filename_of c = filename_of c' -> c = c'.
Proof. by destruct c, c'. Qed.

Lemma raw_path_unfold self d c :
  raw_dir_of self d ++ [filename_of c] = raw_path_of self d c.
Proof. unfold raw_dir_of, raw_path_of. by rewrite <- app_assoc. Qed.

Lemma processed_path_unfold self d c :
  processed_dir_of self d ++ [filename_of c] = processed_path_of self d c.
Proof. unfold processed_dir_of, processed_path_of. by rewrite <- app_assoc. Qed.

Lemma raw_is_not_processed self d c d' c' :
  raw_path_of self d c <> processed_path_of self d' c'.
Proof.
  unfold raw_path_of, processed_path_of. intros E.
  apply app_inv_head in E. by simplify_eq.
Qed.

Lemma processed_path_inj self d c d' c' :
  processed_path_of self d c = processed_path_of self d' c' -> d = d' /\ c = c'.
Proof.
  unfold processed_path_of. intros E. apply app_inv_head in E.
  simplify_eq. split; [done|]. by apply filename_of_inj.
Qed.

Lemma routine_outcome_announced c d input_path output_path fs passes final :
  MsgProcessing c d
    ∈ printed (routine_outcome c d input_path output_path fs passes final)
  /\ CallOpen input_path
    ∈ called (routine_outcome c d input_path output_path fs passes final).
Proof.
  unfold routine_outcome.
  destruct (open_result fs input_path);
    [destruct (writable fs output_path) as [[]|]|];
    cbn [printed called]; split; apply list_elem_of_here.
Qed.

Lemma routine_outcome_error c d input_path output_path fs passes final e :
  open_result fs input_path = Raise e ->
  MsgError input_path e
    ∈ printed (routine_outcome c d input_path output_path fs passes final)
  /\ fs_after (routine_outcome c d input_path output_path fs passes final) = fs.
Proof.
  intros E. unfold routine_outcome. rewrite E. cbn [printed fs_after].
  split; [|done]. apply list_elem_of_further, list_elem_of_here.
Qed.

Lemma process_one_run self d c fs :
  process_one (raw_dir_of self d) (processed_dir_of self d) d
              (filename_of c, processor_of self c) fs
  = if bool_decide (is_Some (fs !! raw_path_of self d c))
    then routine_outcome c d (raw_path_of self d c) (processed_path_of self d c)
           fs (category_passes c d) (category_final fs c d)
    else Outcome (Ok tt) fs [MsgScreenshotNotFound (raw_path_of self d c)] [].
Proof.
  unfold process_one. rewrite raw_path_unfold, processed_path_unfold.
  erewrite bind_ok by reflexivity. unfold and_then.
  destruct (bool_decide (is_Some (fs !! raw_path_of self d c))).
  - rewrite routine_run.
    by destruct (routine_outcome _ _ _ _ _ _ _).
  - done.
Qed.

(** What one turn of the loop does. *)
Lemma process_one_spec self d c fs :
  let o := process_one (raw_dir_of self d) (processed_dir_of self d) d
                       (filename_of c, processor_of self c) fs in
  res o = Ok tt
  /\ (forall p, (is_Some (fs !! raw_path_of self d c) ->
                 p <> processed_path_of self d c) ->
        fs_after o !! p = fs !! p)
  /\ (fs !! raw_path_of self d c = None ->
        MsgScreenshotNotFound (raw_path_of self d c) ∈ printed o)
  /\ (is_Some (fs !! raw_path_of self d c) ->
        MsgProcessing c d ∈ printed o
        /\ CallOpen (raw_path_of self d c) ∈ called o
        /\ forall e, open_result fs (raw_path_of self d c) = Raise e ->
             MsgError (raw_path_of self d c) e ∈ printed o).
Proof.
  cbn zeta. rewrite process_one_run.
  destruct (bool_decide (is_Some (fs !! raw_path_of self d c))) eqn:Hraw.
  - apply bool_decide_eq_true_1 in Hraw.
    split; [apply routine_outcome_res|]. split; [|split].
    + intros p Hp. apply routine_outcome_frame. by apply Hp.
    + intros Hnone. rewrite Hnone in Hraw. by destruct Hraw.
    + intros _. destruct (routine_outcome_announced c d (raw_path_of self d c)
        (processed_path_of self d c) fs (category_passes c d)
        (category_final fs c d)) as [Hm Hc].
      split; [done|]. split; [done|].
      intros e He. by apply routine_outcome_error.
  - apply bool_decide_eq_false_1 in Hraw.
    cbn [res fs_after printed called].
    split; [done|]. split; [done|]. split.
    + intros _. apply list_elem_of_here.
    + intros Hsome. by destruct Hraw.
Qed.

Lemma bind_fields {A B} (m : M A) (k : A -> M B) fs a :
  res (m fs) = Ok a ->
  res (bind m k fs) = res (k a (fs_after (m fs)))
  /\ fs_after (bind m k fs) = fs_after (k a (fs_after (m fs)))
  /\ printed (bind m k fs) = printed (m fs) ++ printed (k a (fs_after (m fs)))
  /\ called (bind m k fs) = called (m fs) ++ called (k a (fs_after (m fs))).
Proof. intros E. unfold bind. by rewrite E. Qed.

(** The loop over the categories: it returns; it changes the file system
    at most at the processed paths of the categories whose raw file
    exists; it reports each missing raw file and runs the routine of each
    raw file that exists. *)
Lemma process_categories_spec self d cs fs :
  let o := process_categories self d cs fs in
  res o = Ok tt
  /\ (forall p,
        (forall c, c ∈ cs -> is_Some (fs !! raw_path_of self d c) ->
                   p <> processed_path_of self d c) ->
        fs_after o !! p = fs !! p)
  /\ (forall c, c ∈ cs -> fs !! raw_path_of self d c = None ->
        MsgScreenshotNotFound (raw_path_of self d c) ∈ printed o)
  /\ (forall c, c ∈ cs -> is_Some (fs !! raw_path_of self d c) ->
        MsgProcessing c d ∈ printed o
        /\ CallOpen (raw_path_of self d c) ∈ called o
        /\ forall e, open_result fs (raw_path_of self d c) = Raise e ->
             MsgError (raw_path_of self d c) e ∈ printed o).
Proof.
  revert fs. induction cs as [|c0 cs IH]; intros fs; cbn zeta.
  - cbn. split; [done|]. split; [done|].
    split; intros c Hc; by apply elem_of_nil in Hc.
  - destruct (process_one_spec self d c0 fs) as (Hres0 & Hframe0 & Hmiss0 & Hrun0).
    set (o0 := process_one _ _ _ _ fs) in *.
    assert (forall c, fs_after o0 !! raw_path_of self d c
                      = fs !! raw_path_of self d c) as Hraw.
    { intros c. apply Hframe0. intros _. apply raw_is_not_processed. }
    destruct (IH (fs_after o0)) as (Hres & Hframe & Hmiss & Hrun).
    unfold process_categories in *. cbn [List.map for_each_M].
    destruct (bind_fields
                (process_one (raw_dir_of self d) (processed_dir_of self d) d
                             (filename_of c0, processor_of self c0))
                (fun _ => for_each_M
                   (process_one (raw_dir_of self d) (processed_dir_of self d) d)
                   (List.map (fun c => (filename_of c, processor_of self c)) cs))
                fs tt Hres0) as (-> & -> & -> & ->).
    fold o0.
    split; [done|]. split; [|split].
    + intros p Hp. rewrite Hframe.
      * apply Hframe0. intros Hsome. apply Hp; [apply list_elem_of_here | done].
      * intros c Hc Hsome. rewrite Hraw in Hsome.
        apply Hp; [by apply list_elem_of_further | done].
    + intros c Hc Hnone. apply elem_of_app.
      apply elem_of_cons in Hc as [-> | Hc].
      * left. by apply Hmiss0.
      * right. apply Hmiss; [done|]. by rewrite Hraw.
    + intros c Hc Hsome.
      assert (forall e, open_result (fs_after o0) (raw_path_of self d c) = Raise e
                        <-> open_result fs (raw_path_of self d c) = Raise e)
        as Hopen
        by (intros e; destruct Hsome as [n Hn]; unfold open_result;
            by rewrite Hraw, Hn).
      apply elem_of_cons in Hc as [-> | Hc].
      * destruct (Hrun0 Hsome) as (Hm & Hc & He).
        split; [apply elem_of_app; by left|].
        split; [apply elem_of_app; by left|].
        intros e Hraise. apply elem_of_app. left. by apply He.
      * rewrite <- Hraw in Hsome. destruct (Hrun c Hc Hsome) as (Hm & Hcall & He).
        split; [apply elem_of_app; by right|].
        split; [apply elem_of_app; by right|].
        intros e Hraise. apply elem_of_app. right. apply He. by apply Hopen.
Qed.

Lemma elem_of_categories c : c ∈ categories.
Proof. destruct c; unfold categories; set_solver. Qed.

Lemma processed_dir_is_not_a_file self d d' c :
  processed_path_of self d' c <> processed_dir_of self d.
Proof.
  unfold processed_path_of, processed_dir_of. intros E.
  apply app_inv_head in E. by simplify_eq.
Qed.

Lemma raw_is_not_processed_dir self d d' c :
  raw_path_of self d' c <> processed_dir_of self d.
Proof.
  unfold raw_path_of, processed_dir_of. intros E.
  apply app_inv_head in E. by simplify_eq.
Qed.

Lemma mkdir_exist_ok_frame p fs q :
  q <> p -> fs_after (mkdir_exist_ok p fs) !! q = fs !! q.
Proof.
  intros Hq. unfold mkdir_exist_ok.
  destruct (fs !! p) as [[]|]; try done.
  destruct (in_directory fs p) as [[]|]; [|done].
  cbn [fs_after]. by rewrite lookup_insert_ne.
Qed.

Lemma mkdir_exist_ok_quiet p fs :
  printed (mkdir_exist_ok p fs) = [] /\ called (mkdir_exist_ok p fs) = [].
Proof.
  unfold mkdir_exist_ok.
  destruct (fs !! p) as [[]|]; try done.
  by destruct (in_directory fs p) as [[]|].
Qed.

Lemma device_run self d fs :
  process_screenshots_for_device self d fs
  = if bool_decide (is_Some (fs !! raw_dir_of self d))
    then bind (mkdir_exist_ok (processed_dir_of self d))
              (fun _ => process_categories self d categories) fs
    else Outcome (Ok tt) fs [MsgRawDirNotFound (raw_dir_of self d)] [].
Proof.
  unfold process_screenshots_for_device.
  replace ((base_dir self ++ [d]) ++ ["Raw"%string]) with (raw_dir_of self d)
    by (unfold raw_dir_of; by rewrite <- app_assoc).
  replace ((base_dir self ++ [d]) ++ ["Processed"%string])
    with (processed_dir_of self d)
    by (unfold processed_dir_of; by rewrite <- app_assoc).
  erewrite bind_ok by reflexivity. unfold and_then.
  destruct (bool_decide (is_Some (fs !! raw_dir_of self d))); cbn [negb].
  - rewrite screenshot_processors_table. fold (process_categories self d categories).
    by destruct (bind _ _ fs).
  - done.
Qed.

(** One device, provided its [Processed] directory exists or can be made
    when its [Raw] directory exists. *)
Lemma device_spec self d fs :
  (is_Some (fs !! raw_dir_of self d) ->
   res (mkdir_exist_ok (processed_dir_of self d) fs) = Ok tt) ->
  let o := process_screenshots_for_device self d fs in
  res o = Ok tt
  /\ (forall p, p <> processed_dir_of self d ->
        (forall c, is_Some (fs !! raw_dir_of self d) ->
                   is_Some (fs !! raw_path_of self d c) ->
                   p <> processed_path_of self d c) ->
        fs_after o !! p = fs !! p)
  /\ (fs !! raw_dir_of self d = None ->
        MsgRawDirNotFound (raw_dir_of self d) ∈ printed o)
  /\ (forall c, is_Some (fs !! raw_dir_of self d) ->
        fs !! raw_path_of self d c = None ->
        MsgScreenshotNotFound (raw_path_of self d c) ∈ printed o)
  /\ (forall c, is_Some (fs !! raw_dir_of self d) ->
        is_Some (fs !! raw_path_of self d c) ->
        MsgProcessing c d ∈ printed o
        /\ CallOpen (raw_path_of self d c) ∈ called o
        /\ forall e, open_result fs (raw_path_of self d c) = Raise e ->
             MsgError (raw_path_of self d c) e ∈ printed o).
Proof.
  intros Hmk. cbn zeta. rewrite device_run.
  destruct (bool_decide (is_Some (fs !! raw_dir_of self d))) eqn:Hdir.
  - apply bool_decide_eq_true_1 in Hdir. specialize (Hmk Hdir).
    destruct (bind_fields (mkdir_exist_ok (processed_dir_of self d))
                (fun _ => process_categories self d categories) fs tt Hmk)
      as (-> & -> & -> & ->).
    destruct (mkdir_exist_ok_quiet (processed_dir_of self d) fs) as [-> ->].
    cbn [app].
    set (fs1 := fs_after (mkdir_exist_ok (processed_dir_of self d) fs)).
    assert (forall c, fs1 !! raw_path_of self d c = fs !! raw_path_of self d c)
      as Hraw by (intros c; apply mkdir_exist_ok_frame,
                    raw_is_not_processed_dir).
    destruct (process_categories_spec self d categories fs1)
      as (Hres & Hframe & Hmiss & Hrun).
    split; [done|]. split; [|split; [|split]].
    + intros p Hp Hout. rewrite Hframe.
      * by apply mkdir_exist_ok_frame.
      * intros c _ Hsome. rewrite Hraw in Hsome. by apply Hout.
    + intros Hnone. rewrite Hnone in Hdir. by destruct Hdir.
    + intros c _ Hnone. apply Hmiss; [apply elem_of_categories|].
      by rewrite Hraw.
    + intros c _ Hsome. rewrite <- Hraw in Hsome.
      destruct (Hrun c (elem_of_categories c) Hsome) as (Hm & Hc & He).
      split; [done|]. split; [done|].
      intros e Hraise. apply He. destruct Hsome as [n Hn].
      unfold open_result in *. rewrite Hn. by rewrite <- Hraw, Hn in Hraise.
  - apply bool_decide_eq_false_1 in Hdir. cbn [res fs_after printed called].
    split; [done|]. split; [done|]. split; [|split].
    + intros _. apply list_elem_of_here.
    + intros c Hsome. by destruct Hdir.
    + intros c Hsome. by destruct Hdir.
Qed.

(** C6, amended. For every device label and category whose raw file is
    absent, provided the [Processed] directory exists or can be made when
    the [Raw] directory exists: the per-device routine returns, what sits at
    the processed path of the category is what sat there before (no file
    is created), a warning is printed for the file or for the whole [Raw]
    directory, and every category whose raw file is present still has its
    routine run. *)
Theorem absent_raw_file_is_skipped self d c fs :
  fs !! raw_path_of self d c = None ->
  (is_Some (fs !! raw_dir_of self d) ->
   res (mkdir_exist_ok (processed_dir_of self d) fs) = Ok tt) ->
  let o := process_screenshots_for_device self d fs in
  res o = Ok tt
  /\ fs_after o !! processed_path_of self d c
     = fs !! processed_path_of self d c
  /\ (MsgScreenshotNotFound (raw_path_of self d c) ∈ printed o
      \/ MsgRawDirNotFound (raw_dir_of self d) ∈ printed o)
  /\ (forall c', is_Some (fs !! raw_dir_of self d) ->
        is_Some (fs !! raw_path_of self d c') ->
        MsgProcessing c' d ∈ printed o
        /\ CallOpen (raw_path_of self d c') ∈ called o).
Proof.
  intros Habsent Hmk.
  destruct (device_spec self d fs Hmk) as (Hres & Hframe & Hnodir & Hmiss & Hrun).
  cbn zeta. split; [done|]. split; [|split].
  - apply Hframe; [apply processed_dir_is_not_a_file|].
    intros c' _ Hsome E. apply processed_path_inj in E as [_ ->].
    rewrite Habsent in Hsome. by destruct Hsome.
  - destruct (fs !! raw_dir_of self d) eqn:Hdir.
    + left. apply Hmiss; [by eexists | done].
    + right. by apply Hnodir.
  - intros c' Hdir Hsome. destruct (Hrun c' Hdir Hsome) as (? & ? & _). done.
Qed.

(** ** All devices *)

Lemma parent_processed_dir self d :
  parent (processed_dir_of self d) = base_dir self ++ [d].
Proof.
  unfold parent, processed_dir_of.
  change [d; "Processed"%string] with ([d] ++ ["Processed"%string]).
  rewrite app_assoc. apply removelast_last.
Qed.

Lemma proper_prefix_shorter (q p : path) :
  q `prefix_of` p -> q <> p -> (length q < length p)%nat.
Proof.
  intros Hpre Hne. pose proof (prefix_length _ _ Hpre) as Hle.
  destruct (decide (length q = length p)) as [E | E]; [|lia].
  destruct Hne. apply prefix_length_eq; [done | lia].
Qed.

Lemma resolve_error_ext fs fs' walked rest :
  (forall q, q `prefix_of` (walked ++ rest) -> q <> walked ++ rest ->
     fs' !! q = fs !! q) ->
  resolve_error fs' walked rest = resolve_error fs walked rest.
Proof.
  revert walked. induction rest as [|name rest IH]; intros walked Hsame; [done|].
  cbn [resolve_error]. destruct rest as [|next rest]; [done|].
  assert (walked ++ name :: next :: rest = (walked ++ [name]) ++ next :: rest)
    as Esplit by by rewrite <- app_assoc.
  rewrite Esplit in Hsame.
  rewrite (Hsame (walked ++ [name])).
  - destruct (fs !! (walked ++ [name])) as [[]|]; try done.
    by apply IH.
  - by exists (next :: rest).
  - intros E. apply (f_equal length) in E. rewrite !length_app in E.
    cbn in E. lia.
Qed.

(** The class of the error depends on the components before the last. *)
Lemma missing_error_ext fs fs' p :
  (forall q, q `prefix_of` p -> q <> p -> fs' !! q = fs !! q) ->
  missing_error fs' p = missing_error fs p.
Proof. intros Hsame. by apply resolve_error_ext. Qed.

Lemma missing_error_insert fs p q n :
  (length p <= length q)%nat ->
  missing_error (<[q := n]> fs) p = missing_error fs p.
Proof.
  intros Hlen. apply missing_error_ext. intros q' Hpre Hne.
  apply lookup_insert_ne. intros ->.
  pose proof (proper_prefix_shorter _ _ Hpre Hne). lia.
Qed.






(** ** The whole run *)

Lemma NoDup_device_types : NoDup device_types.
Proof. apply (bool_decide_unpack _). by vm_compute. Qed.


(** A file in place of a directory on the way to the metadata file is not
    a missing file for Python: the error is not caught. *)
Lemma load_metadata_behind_a_file the_metadata_file fs :
  fs !! the_metadata_file = None ->
  missing_error fs the_metadata_file = NotADirectoryError ->
  load_metadata the_metadata_file fs
  = Outcome (Raise NotADirectoryError) fs [] [].
Proof.
  intros E Herr. unfold load_metadata, try_except, open_json.
  by rewrite E, Herr.
Qed.

Lemma load_metadata_json the_metadata_file fs j :
  fs !! the_metadata_file = Some (JsonFile j) ->
  load_metadata the_metadata_file fs = Outcome (Ok j) fs [] [].
Proof.
  intros E. unfold load_metadata, try_except, open_json. by rewrite E.
Qed.

(** Only the missing file is caught: anything else at the path of the
    metadata file makes [load_metadata], and with it the constructor,
    raise. *)
Lemma load_metadata_raises the_metadata_file fs n :
  fs !! the_metadata_file = Some n ->
  (forall j, n <> JsonFile j) ->
  exists e, res (load_metadata the_metadata_file fs) = Raise e.
Proof.
  intros E Hn. unfold load_metadata, try_except, open_json. rewrite E.
  destruct n; cbn; eauto. by destruct (Hn j).
Qed.



(** ** The metadata does not reach the output *)

Section Blind.

Variable meta : path.

Lemma same_but_metadata_exists fs1 fs2 p :
  same_but_metadata meta fs1 fs2 ->
  bool_decide (is_Some (fs1 !! p)) = bool_decide (is_Some (fs2 !! p)).
Proof.
  intros Hsim. destruct (Hsim p) as [-> | (_ & j1 & j2 & -> & ->)]; [done|].
  rewrite !bool_decide_eq_true_2; eauto.
Qed.

Lemma same_but_metadata_missing fs1 fs2 p :
  same_but_metadata meta fs1 fs2 ->
  missing_error fs1 p = missing_error fs2 p.
Proof.
  intros Hsim. unfold missing_error. generalize (@nil string) as walked.
  induction p as [|name rest IH]; intros walked; [done|].
  cbn [resolve_error]. destruct rest as [|next rest]; [done|].
  destruct (Hsim (walked ++ [name])) as [-> | (_ & j1 & j2 & -> & ->)];
    [|done].
  destruct (fs2 !! (walked ++ [name])) as [[]|]; done.
Qed.

Lemma same_but_metadata_directory fs1 fs2 p :
  same_but_metadata meta fs1 fs2 ->
  in_directory fs1 p = in_directory fs2 p.
Proof.
  intros Hsim. unfold in_directory.
  rewrite (same_but_metadata_missing fs1 fs2 p Hsim).
  by destruct (Hsim (parent p)) as [-> | (_ & j1 & j2 & -> & ->)].
Qed.

Lemma same_but_metadata_insert fs1 fs2 p n :
  same_but_metadata meta fs1 fs2 ->
  same_but_metadata meta (<[p := n]> fs1) (<[p := n]> fs2).
Proof.
  intros Hsim q. destruct (decide (p = q)) as [-> | Hne].
  - left. by rewrite !lookup_insert_eq.
  - rewrite !lookup_insert_ne by done. apply Hsim.
Qed.

Lemma blind_ret {A} (a : A) : blind_to_metadata meta (ret a).
Proof. by intros fs1 fs2 Hsim. Qed.

Lemma blind_raise {A} e : blind_to_metadata meta (@raise A e).
Proof. by intros fs1 fs2 Hsim. Qed.

Lemma blind_lift {A} (r : result A) : blind_to_metadata meta (lift r).
Proof. by intros fs1 fs2 Hsim. Qed.

Lemma blind_print m : blind_to_metadata meta (print m).
Proof. by intros fs1 fs2 Hsim. Qed.

Lemma blind_record c : blind_to_metadata meta (record c).
Proof. by intros fs1 fs2 Hsim. Qed.

Lemma blind_image_convert m im : blind_to_metadata meta (image_convert m im).
Proof. by intros fs1 fs2 Hsim. Qed.

Lemma blind_path_exists p : blind_to_metadata meta (path_exists p).
Proof.
  intros fs1 fs2 Hsim. unfold path_exists. cbn [res printed called fs_after].
  by rewrite (same_but_metadata_exists fs1 fs2 p).
Qed.

Lemma blind_image_open p : blind_to_metadata meta (image_open p).
Proof.
  intros fs1 fs2 Hsim. unfold image_open.
  rewrite (same_but_metadata_missing fs1 fs2 p Hsim).
  destruct (Hsim p) as [-> | (_ & j1 & j2 & -> & ->)]; [|done].
  by destruct (fs2 !! p) as [[]|].
Qed.

Lemma blind_image_save im p format quality :
  blind_to_metadata meta (image_save im p format quality).
Proof.
  intros fs1 fs2 Hsim. unfold image_save, writable.
  rewrite (same_but_metadata_directory fs1 fs2 p) by done.
  destruct (Hsim p) as [-> | (_ & j1 & j2 & -> & ->)].
  - destruct (fs2 !! p) as [[]|]; try done;
      destruct (in_directory fs2 p) as [[]|]; try done;
      cbn; repeat split; by apply same_but_metadata_insert.
  - destruct (in_directory fs2 p) as [[]|]; try done;
      cbn; repeat split; by apply same_but_metadata_insert.
Qed.

Lemma blind_mkdir_exist_ok p : blind_to_metadata meta (mkdir_exist_ok p).
Proof.
  intros fs1 fs2 Hsim. unfold mkdir_exist_ok.
  rewrite (same_but_metadata_directory fs1 fs2 p) by done.
  destruct (Hsim p) as [-> | (_ & j1 & j2 & -> & ->)]; [|done].
  destruct (fs2 !! p) as [[]|]; try done.
  destruct (in_directory fs2 p) as [[]|]; try done.
  cbn; repeat split; by apply same_but_metadata_insert.
Qed.

Lemma blind_bind {A B} (m : M A) (k : A -> M B) :
  blind_to_metadata meta m -> (forall a, blind_to_metadata meta (k a)) ->
  blind_to_metadata meta (bind m k).
Proof.
  intros Hm Hk fs1 fs2 Hsim. unfold bind. cbv zeta.
  destruct (Hm fs1 fs2 Hsim) as (Hr & Hp & Hc & Hfs).
  rewrite Hr.
  destruct (res (m fs2)) as [a|e].
  - destruct (Hk a _ _ Hfs) as (Hr' & Hp' & Hc' & Hfs').
    unfold and_then. cbn [res printed called fs_after].
    rewrite Hp, Hc, Hr', Hp', Hc'. auto.
  - cbn [res printed called fs_after]. auto.
Qed.

Lemma blind_try_except {A} classes (body : M A) handler :
  blind_to_metadata meta body ->
  (forall e, blind_to_metadata meta (handler e)) ->
  blind_to_metadata meta (try_except classes body handler).
Proof.
  intros Hm Hk fs1 fs2 Hsim. unfold try_except. cbv zeta.
  destruct (Hm fs1 fs2 Hsim) as (Hr & Hp & Hc & Hfs).
  rewrite Hr.
  destruct (res (body fs2)) as [a|e]; [auto|].
  destruct (classes e); [|auto].
  destruct (Hk e _ _ Hfs) as (Hr' & Hp' & Hc' & Hfs').
  unfold and_then. cbn [res printed called fs_after].
  rewrite Hp, Hc, Hr', Hp', Hc'. auto.
Qed.

Lemma blind_for_each_M {A} (body : A -> M unit) items :
  (forall i, blind_to_metadata meta (body i)) ->
  blind_to_metadata meta (for_each_M body items).
Proof.
  intros Hbody. induction items as [|i items IH]; cbn [for_each_M].
  - apply blind_ret.
  - apply blind_bind; [apply Hbody | by intros _].
Qed.

Lemma blind_first_existing paths :
  blind_to_metadata meta (first_existing paths).
Proof.
  induction paths as [|p rest IH]; cbn [first_existing].
  - apply blind_ret.
  - apply blind_bind; [apply blind_path_exists|].
    intros [|]; [apply blind_ret | apply IH].
Qed.

Ltac blind :=
  repeat first
    [ apply blind_ret | apply blind_raise | apply blind_lift
    | apply blind_print | apply blind_record | apply blind_image_convert
    | apply blind_path_exists | apply blind_image_open
    | apply blind_image_save | apply blind_mkdir_exist_ok
    | apply blind_first_existing
    | apply blind_bind; [|intros ?]
    | apply blind_try_except; [|intros ?]
    | match goal with
      | |- blind_to_metadata _ (if ?b then _ else _) => destruct b
      | |- blind_to_metadata _ (match ?x with _ => _ end) => destruct x
      end ].

Lemma blind_create_overlay_text self im text position font_size color weight
    stroke_width stroke_fill :
  blind_to_metadata meta
    (create_overlay_text self im text position font_size color weight
                         stroke_width stroke_fill).
Proof.
  unfold create_overlay_text, get_font_path, image_font_truetype. blind.
Qed.

Lemma blind_self_add_gradient_overlay self im c e position size opacity :
  blind_to_metadata meta
    (self_add_gradient_overlay self im c e position size opacity).
Proof. unfold self_add_gradient_overlay. blind. Qed.

Ltac blind_routine :=
  repeat first
    [ apply blind_create_overlay_text
    | apply blind_self_add_gradient_overlay
    | apply blind_print | apply blind_image_convert
    | apply blind_image_open | apply blind_image_save
    | apply blind_bind; [|intros ?]
    | apply blind_try_except; [|intros ?]
    | progress cbn beta iota delta [im_size] ].

Lemma blind_two_pass c title title_color title_stroke footer footer_color self
    input_path output_path device_type :
  blind_to_metadata meta
    (two_pass_screenshot c title title_color title_stroke footer footer_color
                         self input_path output_path device_type).
Proof.
  unfold two_pass_screenshot. blind_routine.
Qed.

Lemma blind_main_menu self input_path output_path device_type :
  blind_to_metadata meta
    (process_main_menu_screenshot self input_path output_path device_type).
Proof.
  unfold process_main_menu_screenshot. blind_routine.
Qed.

Lemma blind_processor self c input_path output_path device_type :
  blind_to_metadata meta
    (processor_of self c input_path output_path device_type).
Proof.
  destruct c; cbn [processor_of].
  - apply blind_main_menu.
  - rewrite process_gameplay_screenshot_eq. apply blind_two_pass.
  - rewrite process_accessibility_screenshot_eq. apply blind_two_pass.
  - rewrite process_cultural_heritage_screenshot_eq. apply blind_two_pass.
  - rewrite process_statistics_screenshot_eq. apply blind_two_pass.
  - rewrite process_victory_screenshot_eq. apply blind_two_pass.
Qed.

Lemma blind_process_one self d c :
  blind_to_metadata meta
    (process_one (raw_dir_of self d) (processed_dir_of self d) d
                 (filename_of c, processor_of self c)).
Proof.
  unfold process_one.
  apply blind_bind; [apply blind_path_exists|].
  intros [|]; [apply blind_processor | apply blind_print].
Qed.

Lemma blind_process_categories self d cs :
  blind_to_metadata meta (process_categories self d cs).
Proof.
  unfold process_categories.
  induction cs as [|c cs IH]; cbn [List.map for_each_M].
  - apply blind_ret.
  - apply blind_bind; [apply blind_process_one | by intros _].
Qed.

Lemma blind_device self d :
  blind_to_metadata meta (process_screenshots_for_device self d).
Proof.
  intros fs1 fs2 Hsim. rewrite !device_run.
  rewrite (same_but_metadata_exists fs1 fs2) by done.
  destruct (bool_decide (is_Some (fs2 !! raw_dir_of self d))).
  - apply blind_bind; [apply blind_mkdir_exist_ok | | done].
    intros _. apply blind_process_categories.
  - cbn [res printed called fs_after]. auto.
Qed.

Lemma blind_process_all_screenshots self :
  blind_to_metadata meta (process_all_screenshots self).
Proof.
  unfold process_all_screenshots.
  apply blind_bind; [apply blind_print | intros _].
  apply blind_bind; [apply blind_print | intros _].
  apply blind_bind; [|intros _].
  - apply blind_for_each_M. intros d.
    apply blind_bind; [apply blind_print | intros _]. apply blind_device.
  - apply blind_bind; [apply blind_print | intros _]. apply blind_print.
Qed.

End Blind.

(** No routine reads the [metadata] field of the generator. *)
Lemma process_all_screenshots_metadata the_base_dir the_metadata_file j1 j2 :
  process_all_screenshots (Generator the_base_dir the_metadata_file j1)
  = process_all_screenshots (Generator the_base_dir the_metadata_file j2).
Proof. reflexivity. Qed.

Lemma main_with_metadata argv1 script_dir fs j :
  let base := match argv1 with Some given => given | None => script_dir end in
  let meta := base ++ ["screenshot_metadata.json"%string] in
  fs !! meta = Some (JsonFile j) ->
  main argv1 script_dir fs
  = process_all_screenshots (Generator base meta j) fs.
Proof.
  intros base meta Hj. unfold main, new_generator. fold base. fold meta.
  unfold bind. rewrite (load_metadata_json _ _ j Hj).
  cbn [res fs_after printed called ret and_then app].
  by destruct (process_all_screenshots _ fs).
Qed.

(** C8. Two runs that differ only in the JSON document of the metadata
    file return the same result, print the same lines and make the same
    calls; afterwards the two file systems agree at every path other than
    the metadata file, and hold the same images. *)
Theorem metadata_is_not_consulted argv1 script_dir fs j1 j2 :
  let base := match argv1 with Some given => given | None => script_dir end in
  let meta := base ++ ["screenshot_metadata.json"%string] in
  let o1 := main argv1 script_dir (<[meta := JsonFile j1]> fs) in
  let o2 := main argv1 script_dir (<[meta := JsonFile j2]> fs) in
  res o1 = res o2 /\ printed o1 = printed o2 /\ called o1 = called o2
  /\ (forall p, p <> meta -> fs_after o1 !! p = fs_after o2 !! p)
  /\ (forall p im, fs_after o1 !! p = Some (ImageFile im)
                   <-> fs_after o2 !! p = Some (ImageFile im)).
Proof.
  intros base meta. cbn zeta.
  rewrite (main_with_metadata argv1 script_dir _ j1)
    by apply lookup_insert_eq.
  rewrite (main_with_metadata argv1 script_dir _ j2)
    by apply lookup_insert_eq.
  fold base. fold meta.
  rewrite (process_all_screenshots_metadata base meta j1 j2).
  assert (same_but_metadata meta (<[meta := JsonFile j1]> fs)
                                 (<[meta := JsonFile j2]> fs)) as Hsim.
  { intros p. destruct (decide (meta = p)) as [<- | Hne].
    - right. split; [done|]. exists j1, j2. by rewrite !lookup_insert_eq.
    - left. by rewrite !lookup_insert_ne. }
  destruct (blind_process_all_screenshots meta (Generator base meta j2) _ _ Hsim)
    as (Hr & Hp & Hc & Hfs).
  split; [done|]. split; [done|]. split; [done|]. split.
  - intros p Hp'. by destruct (Hfs p) as [E | [E _]].
  - intros p im.
    destruct (Hfs p) as [-> | (_ & j1' & j2' & -> & ->)]; [done|].
    split; intros; simplify_eq.
Qed.

(** * Further properties of the script *)

(** ** Metadata and fonts *)


Lemma find_first {A} (P : A -> bool) (l : list A) (x : A) :
  List.find P l = Some x ->
  exists before after,
    l = before ++ x :: after /\ P x = true
    /\ forall y, In y before -> P y = false.
Proof.
  induction l as [|a l IH]; [done|]. cbn [List.find].
  destruct (P a) eqn:Ha.
  - intros [= ->]. exists [], l. by repeat split.
  - intros Hfind. destruct (IH Hfind) as (before & after & -> & Hx & Hb).
    exists (a :: before), after. repeat split; [done|].
    intros y [<- | Hy]; [done | by apply Hb].
Qed.

Lemma find_nowhere {A} (P : A -> bool) (l : list A) :
  List.find P l = None -> forall y, In y l -> P y = false.
Proof.
  induction l as [|a l IH]; [done|]. cbn [List.find].
  destruct (P a) eqn:Ha; [done|].
  intros Hfind y [<- | Hy]; [done | by apply IH].
Qed.

(** X2. [get_font_path] returns the first path of its search list that
    exists, in the order of the list, and [None] when none exists; it
    leaves the file system alone and prints nothing. *)
Theorem get_font_path_first_existing self weight fs :
  exists found,
    get_font_path self weight fs = Outcome (Ok found) fs [] []
    /\ match found with
       | Some file =>
           exists before after,
             font_paths = before ++ file :: after
             /\ is_Some (fs !! file)
             /\ forall earlier, In earlier before -> fs !! earlier = None
       | None => forall file, In file font_paths -> fs !! file = None
       end.
Proof.
  unfold get_font_path. rewrite first_existing_run. eexists. split; [done|].
  destruct (List.find _ font_paths) as [file|] eqn:Hfind.
  - destruct (find_first _ _ _ Hfind) as (before & after & Hsplit & Hfile & Hb).
    exists before, after. split; [done|].
    split; [by apply bool_decide_eq_true_1 in Hfile|].
    intros earlier Hin. specialize (Hb earlier Hin).
    apply bool_decide_eq_false_1 in Hb.
    destruct (fs !! earlier); [|done]. by destruct Hb.
  - intros file Hin. pose proof (find_nowhere _ _ Hfind file Hin) as Hb.
    apply bool_decide_eq_false_1 in Hb.
    destruct (fs !! file); [|done]. by destruct Hb.
Qed.



(** ** More on the gradient *)

(** X5. The result of [add_gradient_overlay] depends on the start colour
    only through the channels it decodes to, and not at all on the end
    colour: a hex string and the tuple of its three pairs give the same
    image. *)
Theorem gradient_depends_on_decoded_channels im c1 c2 e1 e2 r g b position size
    opacity :
  fill_color c1 0 = Ok (RGBA r g b 0) ->
  fill_color c2 0 = Ok (RGBA r g b 0) ->
  add_gradient_overlay im c1 e1 position size opacity
  = add_gradient_overlay im c2 e2 position size opacity.
Proof.
  intros H1 H2.
  rewrite (add_gradient_overlay_decoded im c1 e1 r g b)
    by by apply fill_color_decoded with 0.
  rewrite (add_gradient_overlay_decoded im c2 e2 r g b)
    by by apply fill_color_decoded with 0.
  done.
Qed.

(** X6. A start colour that does not decode makes [add_gradient_overlay]
    raise [ValueError] as soon as there is one strip to draw. With a
    height of 0 or less the colour is never looked at: the call returns
    the input, every pixel made opaque. *)
Theorem undecodable_colour_raises_with_a_strip im c e x y width height opacity
    err :
  fill_color c 0 = Raise err ->
  (0 < height ->
   add_gradient_overlay im c e (x, y) (width, height) opacity
   = Raise ValueError)
  /\ (height <= 0 ->
      exists out,
        add_gradient_overlay im c e (x, y) (width, height) opacity = Ok out
        /\ im_width out = im_width im /\ im_height out = im_height im
        /\ forall px py, im_px out px py = opaque (im_px im px py)).
Proof.
  intros Hbad.
  destruct (add_gradient_overlay_cases im c e (x, y) (width, height) opacity)
    as [(r & g & b & Hc & _) | (_ & Hrun)].
  { rewrite Hc in Hbad. discriminate Hbad. }
  cbn [snd] in Hrun. split.
  - intros Hpos. rewrite Hrun.
    by destruct (Z.ltb_spec 0 height); [|lia].
  - intros Hnone. rewrite Hrun.
    destruct (Z.ltb_spec 0 height); [lia|].
    eexists. split; [done|]. split; [done|]. split; [done|].
    intros px py. rewrite faded_px.
    rewrite bool_decide_eq_false_2 by lia.
    unfold composite_px. cbn [alpha]. rewrite Z.eqb_refl.
    apply opaque_convert_px.
Qed.

Lemma gradient_alpha_zero_opacity opacity height i :
  (opacity == 0)%Q -> gradient_alpha opacity height i = 0.
Proof.
  intros Hzero. unfold gradient_alpha, py_int.
  assert (Qnum opacity = 0) as Hnum.
  { unfold Qeq in Hzero. simpl in Hzero. lia. }
  cbn [Qnum Qmult]. rewrite Hnum. cbn. apply Z.quot_0_l.
  done.
Qed.

(** X7. With opacity 0 every strip is fully transparent: whatever the
    region and the colour, a call that returns hands back the input with
    every pixel made opaque and nothing else changed. *)
Theorem zero_opacity_changes_nothing im c e x y width height opacity out :
  (opacity == 0)%Q ->
  add_gradient_overlay im c e (x, y) (width, height) opacity = Ok out ->
  im_width out = im_width im /\ im_height out = im_height im
  /\ forall px py, im_px out px py = opaque (im_px im px py).
Proof.
  intros Hzero Hrun.
  assert (exists r g b, out = faded im r g b (x, y) (width, height) opacity)
    as (r & g & b & ->).
  { destruct (add_gradient_overlay_cases im c e (x, y) (width, height) opacity)
      as [(r & g & b & _ & E) | (_ & E)]; rewrite E in Hrun.
    - exists r, g, b. congruence.
    - cbn [snd] in Hrun. destruct (0 <? height); [done|].
      exists 0, 0, 0. congruence. }
  split; [done|]. split; [done|].
  intros px py. rewrite faded_px.
  assert (forall src : rgba, alpha src = 0 ->
            opaque (composite_px (im_px (convert ModeRGBA im) px py) src)
            = opaque (im_px im px py)) as Hclear.
  { intros src Hsrc. unfold composite_px. rewrite Hsrc, Z.eqb_refl.
    apply opaque_convert_px. }
  case_bool_decide; apply Hclear; cbn [alpha]; [|done].
  by apply gradient_alpha_zero_opacity.
Qed.

(** ** More on the routines *)

(** X8. Every routine returns, whatever the file system and the paths.
    When the input does not open as an image the routine prints its
    opening line and the error, has made the one call to open the file,
    and leaves the file system as it was. *)
Theorem routine_contains_unreadable_input self c input_path output_path
    device_type fs :
  res (processor_of self c input_path output_path device_type fs) = Ok tt
  /\ ((forall im, fs !! input_path <> Some (ImageFile im)) ->
      exists e,
        processor_of self c input_path output_path device_type fs
        = Outcome (Ok tt) fs
            [MsgProcessing c device_type; MsgError input_path e]
            [CallOpen input_path]).
Proof.
  rewrite routine_run. split; [apply routine_outcome_res|].
  intros Hbad. unfold routine_outcome, open_result.
  destruct (fs !! input_path) as [[| im | j |]|]; eauto.
  by destruct (Hbad im).
Qed.

(** X9. On an image the main-menu routine makes its three text passes
    with sizes that do not grow from title to subtitle to footer line, and
    anchors the subtitle below the title by the title size plus 10. *)
Theorem main_menu_text_hierarchy self input_path output_path device_type fs im :
  fs !! input_path = Some (ImageFile im) ->
  0 <= im_width im ->
  exists t1 x1 y1 s1 c1 w1 k1 f1 t2 x2 y2 s2 c2 w2 k2 f2 t3 p3 s3 c3 w3 k3 f3,
    List.filter is_text
      (called (process_main_menu_screenshot self input_path output_path
                 device_type fs))
    = [ CallText t1 (x1, y1) s1 c1 w1 k1 f1;
        CallText t2 (x2, y2) s2 c2 w2 k2 f2;
        CallText t3 p3 s3 c3 w3 k3 f3 ]
    /\ 0 <= s3 <= s2 /\ s2 <= s1
    /\ x2 = x1 /\ y2 = y1 + s1 + 10.
Proof.
  intros Hin Hw. rewrite main_menu_run. unfold routine_outcome, open_result.
  rewrite Hin.
  assert (0 <= footer_size device_type (im_width im)
          <= subtitle_size device_type (im_width im)
          /\ subtitle_size device_type (im_width im)
             <= main_title_size device_type (im_width im)) as Hsizes.
  { unfold footer_size, subtitle_size, main_title_size.
    destruct (startswith device_type "iPhone");
      rewrite !int_times_div by (done || (simpl; lia));
      cbn [Qnum Qden];
      repeat split;
      first [ apply Z.div_pos; lia
            | apply Z.div_le_lower_bound; lia
            | idtac ].
    all: try (apply Z.div_le_lower_bound; [lia|]).
    all: try (pose proof (Z.mul_div_le (im_width im * 25) 1000 ltac:(lia));
              pose proof (Z.mul_div_le (im_width im * 35) 1000 ltac:(lia));
              pose proof (Z.mul_div_le (im_width im * 45) 1000 ltac:(lia));
              pose proof (Z.mul_div_le (im_width im * 6) 100 ltac:(lia));
              pose proof (Z.mul_div_le (im_width im * 8) 100 ltac:(lia)); lia). }
  destruct (writable fs output_path) as [[]|e]; cbn; repeat eexists;
    first [ apply Hsizes | done ].
Qed.

(** ** What the run writes *)

Lemma writes_within_unchanged {A} (area : path -> Prop) (m : M A) :
  (forall fs, fs_after (m fs) = fs) -> writes_within area m.
Proof. intros Hm fs p. left. by rewrite Hm. Qed.

Lemma writes_within_mono {A} (area area' : path -> Prop) (m : M A) :
  (forall p, area p -> area' p) -> writes_within area m ->
  writes_within area' m.
Proof.
  intros Hsub Hm fs p. destruct (Hm fs p) as [E | (Ha & Hd & Hw)]; [by left|].
  right. split; [by apply Hsub | done].
Qed.

Lemma writes_within_step (area : path -> Prop) (fs fs1 fs2 : gmap path node) p :
  (fs1 !! p = fs !! p
   \/ (area p /\ fs !! p <> Some Directory
       /\ (fs1 !! p = Some Directory
           \/ exists im, fs1 !! p = Some (ImageFile im)))) ->
  (fs2 !! p = fs1 !! p
   \/ (area p /\ fs1 !! p <> Some Directory
       /\ (fs2 !! p = Some Directory
           \/ exists im, fs2 !! p = Some (ImageFile im)))) ->
  fs2 !! p = fs !! p
  \/ (area p /\ fs !! p <> Some Directory
      /\ (fs2 !! p = Some Directory
          \/ exists im, fs2 !! p = Some (ImageFile im))).
Proof.
  intros [E1 | (Ha1 & Hd1 & Hw1)] [E2 | (Ha2 & Hd2 & Hw2)].
  - left. congruence.
  - right. split; [done|]. split; [congruence | done].
  - right. split; [done|]. split; [done|]. by rewrite E2.
  - right. done.
Qed.

Lemma writes_within_bind {A B} (area : path -> Prop) (m : M A) (k : A -> M B) :
  writes_within area m -> (forall a, writes_within area (k a)) ->
  writes_within area (bind m k).
Proof.
  intros Hm Hk fs p. unfold bind. cbv zeta.
  destruct (res (m fs)) as [a|e]; cbn [fs_after and_then]; [|apply Hm].
  apply (writes_within_step area fs (fs_after (m fs))); [apply Hm | apply Hk].
Qed.

Lemma writes_within_for_each_M {A} (area : path -> Prop) (body : A -> M unit)
    items :
  (forall i, In i items -> writes_within area (body i)) ->
  writes_within area (for_each_M body items).
Proof.
  induction items as [|i items IH]; intros Hbody; cbn [for_each_M].
  - by apply writes_within_unchanged.
  - apply writes_within_bind; [apply Hbody; by left|].
    intros _. apply IH. intros j Hj. apply Hbody. by right.
Qed.

Lemma writes_within_print (area : path -> Prop) m :
  writes_within area (print m).
Proof. by apply writes_within_unchanged. Qed.

Lemma writes_within_mkdir p :
  writes_within (fun q => q = p) (mkdir_exist_ok p).
Proof.
  intros fs q. unfold mkdir_exist_ok.
  destruct (fs !! p) as [n|] eqn:Hp.
  { left. by destruct n. }
  destruct (in_directory fs p) as [[]|]; [|by left]. cbn [fs_after].
  destruct (decide (p = q)) as [<- | Hne].
  - right. rewrite lookup_insert_eq, Hp. eauto.
  - left. by rewrite lookup_insert_ne.
Qed.

Lemma writes_within_processor self c input_path output_path device_type :
  writes_within (fun q => q = output_path)
    (processor_of self c input_path output_path device_type).
Proof.
  intros fs q. rewrite routine_run. unfold routine_outcome.
  destruct (open_result fs input_path) as [im|e]; [|by left].
  destruct (writable fs output_path) as [[]|e] eqn:Hw; [|by left].
  cbn [fs_after]. destruct (decide (output_path = q)) as [<- | Hne].
  - right. rewrite lookup_insert_eq. split; [done|]. split; [|eauto].
    unfold writable in Hw. intros Hdir. by rewrite Hdir in Hw.
  - left. by rewrite lookup_insert_ne.
Qed.

Lemma writes_within_device self d :
  writes_within
    (fun q => q = processed_dir_of self d
              \/ exists c, q = processed_path_of self d c)
    (process_screenshots_for_device self d).
Proof.
  unfold process_screenshots_for_device.
  replace ((base_dir self ++ [d]) ++ ["Raw"%string]) with (raw_dir_of self d)
    by (unfold raw_dir_of; by rewrite <- app_assoc).
  replace ((base_dir self ++ [d]) ++ ["Processed"%string])
    with (processed_dir_of self d)
    by (unfold processed_dir_of; by rewrite <- app_assoc).
  apply writes_within_bind; [by apply writes_within_unchanged|].
  intros present. destruct (negb present); [apply writes_within_print|].
  apply writes_within_bind.
  - eapply writes_within_mono; [|apply writes_within_mkdir]. intros q ->. by left.
  - intros _. rewrite screenshot_processors_table.
    apply writes_within_for_each_M. intros item Hitem.
    apply in_map_iff in Hitem as (c & <- & _). unfold process_one.
    rewrite raw_path_unfold, processed_path_unfold.
    apply writes_within_bind; [by apply writes_within_unchanged|].
    intros [|]; [|apply writes_within_print].
    eapply writes_within_mono; [|apply writes_within_processor].
    intros q ->. right. by exists c.
Qed.

Lemma load_metadata_keeps_fs the_metadata_file fs :
  fs_after (load_metadata the_metadata_file fs) = fs.
Proof.
  unfold load_metadata, try_except, open_json.
  destruct (fs !! the_metadata_file) as [[]|]; try done.
  by destruct (missing_error fs the_metadata_file).
Qed.

Lemma writes_within_process_all self :
  writes_within (processed_area (base_dir self)) (process_all_screenshots self).
Proof.
  unfold process_all_screenshots.
  repeat (apply writes_within_bind; [apply writes_within_print | intros _]).
  apply writes_within_bind;
    [|intros _; apply writes_within_bind;
                [apply writes_within_print | intros _; apply writes_within_print]].
  apply writes_within_for_each_M. intros d Hd.
  apply writes_within_bind; [apply writes_within_print | intros _].
  eapply writes_within_mono; [|apply writes_within_device].
  intros q Hq. exists d. split; [by apply list_elem_of_In|]. exact Hq.
Qed.

Lemma new_generator_keeps_fs base fs :
  fs_after (new_generator base fs) = fs.
Proof.
  unfold new_generator, bind. cbv zeta.
  pose proof (load_metadata_keeps_fs
                (base ++ ["screenshot_metadata.json"%string]) fs) as Hfs.
  destruct (res (load_metadata _ fs)); cbn [fs_after and_then ret]; exact Hfs.
Qed.

Lemma new_generator_base base fs self :
  res (new_generator base fs) = Ok self -> base_dir self = base.
Proof.
  unfold new_generator, bind. cbv zeta.
  destruct (res (load_metadata _ fs)); cbn [res and_then ret]; [|done].
  by intros [= <-].
Qed.

(** A statement that writes nothing, then one that writes within [area]
    for every value the first can return. *)
Lemma writes_within_after_read {A B} (area : path -> Prop) (m : M A)
    (k : A -> M B) :
  (forall fs, fs_after (m fs) = fs) ->
  (forall fs a, res (m fs) = Ok a -> writes_within area (k a)) ->
  writes_within area (bind m k).
Proof.
  intros Hm Hk fs p. unfold bind. cbv zeta.
  destruct (res (m fs)) as [a|e] eqn:E; cbn [fs_after and_then].
  - rewrite (Hm fs). apply (Hk fs a E).
  - left. by rewrite (Hm fs).
Qed.

Lemma writes_within_main argv1 script_dir :
  writes_within
    (processed_area
       match argv1 with Some given => given | None => script_dir end)
    (main argv1 script_dir).
Proof.
  apply (writes_within_after_read _
           (new_generator
              match argv1 with Some given => given | None => script_dir end)
           process_all_screenshots).
  - apply new_generator_keeps_fs.
  - intros fs self Hself. apply new_generator_base in Hself. rewrite <- Hself.
    apply writes_within_process_all.
Qed.

(** X10. Whatever the file system, and whether [main] returns or raises,
    it leaves every path outside the [Processed] directories of the five
    devices as it was: raw screenshots, the metadata file and everything
    else are only read. *)
Theorem run_writes_only_processed argv1 script_dir fs p :
  let base := match argv1 with Some given => given | None => script_dir end in
  ~ processed_area base p ->
  fs_after (main argv1 script_dir fs) !! p = fs !! p.
Proof.
  intros base Hout.
  destruct (writes_within_main argv1 script_dir fs p) as [E | (Harea & _)];
    [done | by destruct Hout].
Qed.

(** X11. [main] removes nothing and never replaces a directory: a path
    that exists still exists afterwards, a directory is still a directory,
    and a path that changes holds a directory or an image afterwards. *)
Theorem run_never_deletes argv1 script_dir fs p :
  let o := main argv1 script_dir fs in
  (is_Some (fs !! p) -> is_Some (fs_after o !! p))
  /\ (fs !! p = Some Directory -> fs_after o !! p = Some Directory)
  /\ (fs_after o !! p = fs !! p
      \/ fs_after o !! p = Some Directory
      \/ exists im, fs_after o !! p = Some (ImageFile im)).
Proof.
  cbn zeta.
  destruct (writes_within_main argv1 script_dir fs p)
    as [E | (_ & Hdir & [Hw | [im Hw]])].
  - rewrite E. auto.
  - rewrite Hw. split; [eauto|]. split; [done | auto].
  - rewrite Hw. split; [eauto|]. split; [done | eauto].
Qed.

(** ** Devices without screenshots *)

Lemma process_devices_no_raw self ds fs :
  (forall d, In d ds -> fs !! raw_dir_of self d = None) ->
  process_devices self ds fs
  = Outcome (Ok tt) fs
      (flat_map (fun d => [MsgDevice d; MsgRawDirNotFound (raw_dir_of self d)])
                ds)
      [].
Proof.
  unfold process_devices.
  induction ds as [|d ds IH]; intros Hnone; cbn [for_each_M flat_map]; [done|].
  eapply (bind_step _ _ fs tt fs [MsgDevice d; MsgRawDirNotFound (raw_dir_of self d)]
            [] (Ok tt) fs _ []).
  - eapply (bind_step _ _ fs tt fs [MsgDevice d] [] (Ok tt) fs
              [MsgRawDirNotFound (raw_dir_of self d)] []); [done|].
    rewrite device_run. rewrite bool_decide_eq_false_2; [done|].
    rewrite (Hnone d) by by left. by intros [? ?].
  - apply IH. intros d' Hd'. apply Hnone. by right.
Qed.

(** X12. When none of the five devices has a [Raw] directory, the batch
    returns without touching the file system and without a call into the
    imaging library: it prints its two opening lines, for each device its
    name and the warning about the missing directory, in the order of the
    device list, and its two closing lines. *)
Theorem no_raw_directory_no_work self fs :
  (forall d, In d device_types -> fs !! raw_dir_of self d = None) ->
  process_all_screenshots self fs
  = Outcome (Ok tt) fs
      (MsgStart :: MsgRule
         :: flat_map (fun d => [MsgDevice d;
                                MsgRawDirNotFound (raw_dir_of self d)])
                     device_types
         ++ [MsgComplete; MsgSavedIn])
      [].
Proof.
  intros Hnone.
  change (process_all_screenshots self)
    with (do! print MsgStart in
          do! print MsgRule in
          do! process_devices self device_types in
          do! print MsgComplete in
          print MsgSavedIn)%py.
  eapply (bind_step _ _ fs tt fs [MsgStart] [] (Ok tt) fs _ []); [done|].
  eapply (bind_step _ _ fs tt fs [MsgRule] [] (Ok tt) fs _ []); [done|].
  eapply (bind_step _ _ fs tt fs _ [] (Ok tt) fs [MsgComplete; MsgSavedIn] []).
  - by apply process_devices_no_raw.
  - by eapply (bind_step _ _ fs tt fs [MsgComplete] [] (Ok tt) fs [MsgSavedIn] []).
Qed.

Lemma process_categories_no_raw self d cs fs :
  (forall c, In c cs -> fs !! raw_path_of self d c = None) ->
  process_categories self d cs fs
  = Outcome (Ok tt) fs
      (List.map (fun c => MsgScreenshotNotFound (raw_path_of self d c)) cs) [].
Proof.
  unfold process_categories.
  induction cs as [|c cs IH]; intros Hnone; cbn [List.map for_each_M]; [done|].
  eapply (bind_step _ _ fs tt fs [MsgScreenshotNotFound (raw_path_of self d c)]
            [] (Ok tt) fs _ []).
  - rewrite process_one_run. rewrite bool_decide_eq_false_2; [done|].
    rewrite (Hnone c) by by left. by intros [? ?].
  - apply IH. intros c' Hc'. apply Hnone. by right.
Qed.

(** X13. A [Raw] directory without any of the six screenshots: when the
    device directory is there and nothing sits at [Processed], the
    per-device routine creates the empty [Processed] directory, changes
    nothing else, and prints one warning per file name in the order of the
    table. *)
Theorem empty_raw_directory_still_creates_processed self d fs :
  is_Some (fs !! raw_dir_of self d) ->
  (forall c, fs !! raw_path_of self d c = None) ->
  fs !! processed_dir_of self d = None ->
  fs !! (base_dir self ++ [d]) = Some Directory ->
  process_screenshots_for_device self d fs
  = Outcome (Ok tt) (<[processed_dir_of self d := Directory]> fs)
      (List.map (fun c => MsgScreenshotNotFound (raw_path_of self d c))
                categories)
      [].
Proof.
  intros Hraw Hnone Hpd Hdev. rewrite device_run.
  rewrite bool_decide_eq_true_2 by done.
  eapply (bind_step _ _ fs tt (<[processed_dir_of self d := Directory]> fs)
            [] [] (Ok tt) _ _ []).
  - unfold mkdir_exist_ok, in_directory.
    by rewrite Hpd, parent_processed_dir, Hdev.
  - apply process_categories_no_raw. intros c _.
    rewrite lookup_insert_ne; [apply Hnone|].
    intros E. symmetry in E. by apply raw_is_not_processed_dir in E.
Qed.

(** ** Running twice *)

Lemma font_path_is_not_processed self d q :
  In q font_paths ->
  q <> processed_dir_of self d
  /\ forall c, q <> processed_path_of self d c.
Proof.
  intros Hq. split.
  - intros E. apply (f_equal (@last string)) in E.
    unfold processed_dir_of in E.
    change [d; "Processed"%string] with ([d] ++ ["Processed"%string]) in E.
    rewrite app_assoc, last_snoc in E.
    simpl in Hq. destruct Hq as [<- | [<- | [<- | [<- | []]]]]; discriminate E.
  - intros c E. apply (f_equal (@last string)) in E.
    unfold processed_path_of in E.
    change [d; "Processed"%string; filename_of c]
      with ([d; "Processed"%string] ++ [filename_of c]) in E.
    rewrite app_assoc, last_snoc in E.
    simpl in Hq.
    destruct Hq as [<- | [<- | [<- | [<- | []]]]]; destruct c; discriminate E.
Qed.

Lemma parent_processed_path self d c :
  parent (processed_path_of self d c) = processed_dir_of self d.
Proof.
  unfold parent, processed_path_of, processed_dir_of.
  change [d; "Processed"%string; filename_of c]
    with ([d; "Processed"%string] ++ [filename_of c]).
  rewrite app_assoc. apply removelast_last.
Qed.

Lemma find_ext_in {A} (P Q : A -> bool) (l : list A) :
  (forall x, In x l -> P x = Q x) -> List.find P l = List.find Q l.
Proof.
  induction l as [|a l IH]; intros Hext; [done|]. cbn [List.find].
  rewrite (Hext a) by by left. destruct (Q a); [done|].
  apply IH. intros x Hx. apply Hext. by right.
Qed.

Lemma select_font_same (h g : gmap path node) font_size :
  (forall q, In q font_paths -> h !! q = g !! q) ->
  select_font h font_size = select_font g font_size.
Proof.
  intros Hfonts. unfold select_font.
  rewrite (find_ext_in _ (fun p => bool_decide (is_Some (g !! p)))); [done|].
  intros q Hq. by rewrite (Hfonts q Hq).
Qed.

Lemma category_final_same (h g : gmap path node) c d im :
  (forall q, In q font_paths -> h !! q = g !! q) ->
  category_final h c d im = category_final g c d im.
Proof.
  intros Hfonts.
  destruct c; cbn [category_final two_pass_texts];
    unfold main_menu_final, two_pass_final, with_text;
    by rewrite !(select_font_same h g).
Qed.

(** A turn of the loop prints, calls and writes the same from two file
    systems that look the same to it. *)
Lemma process_one_same_inputs self d c h g :
  same_inputs self d c h g ->
  res (process_one (raw_dir_of self d) (processed_dir_of self d) d
                   (filename_of c, processor_of self c) h)
  = res (process_one (raw_dir_of self d) (processed_dir_of self d) d
                     (filename_of c, processor_of self c) g)
  /\ printed (process_one (raw_dir_of self d) (processed_dir_of self d) d
                          (filename_of c, processor_of self c) h)
     = printed (process_one (raw_dir_of self d) (processed_dir_of self d) d
                            (filename_of c, processor_of self c) g)
  /\ called (process_one (raw_dir_of self d) (processed_dir_of self d) d
                         (filename_of c, processor_of self c) h)
     = called (process_one (raw_dir_of self d) (processed_dir_of self d) d
                           (filename_of c, processor_of self c) g)
  /\ written self d c h = written self d c g.
Proof.
  intros (Hraw & Hw & Hfonts). rewrite !process_one_run.
  unfold written, routine_outcome, open_result. rewrite Hraw, Hw.
  case_bool_decide as Hsome; [|done]. destruct Hsome as [n Hn].
  rewrite Hn. destruct n as [| im | j |]; try done.
  rewrite (category_final_same h g) by done.
  by destruct (writable g (processed_path_of self d c)) as [[]|].
Qed.

Lemma process_one_fs_after self d c g :
  fs_after (process_one (raw_dir_of self d) (processed_dir_of self d) d
                        (filename_of c, processor_of self c) g)
  = match written self d c g with
    | Some im => <[processed_path_of self d c := ImageFile im]> g
    | None => g
    end.
Proof.
  rewrite process_one_run. unfold written, routine_outcome.
  destruct (bool_decide (is_Some (g !! raw_path_of self d c))); [|done].
  destruct (open_result g (raw_path_of self d c)); [|done].
  by destruct (writable g (processed_path_of self d c)) as [[]|].
Qed.

(** Writing the output of one category does not change what the turn of
    another category looks at. *)
Lemma same_inputs_after_turn self d c0 c g :
  c <> c0 ->
  same_inputs self d c
    (fs_after (process_one (raw_dir_of self d) (processed_dir_of self d) d
                           (filename_of c0, processor_of self c0) g))
    g.
Proof.
  intros Hne. rewrite process_one_fs_after.
  destruct (written self d c0 g) as [im|]; [|done].
  assert (forall p, p <> processed_path_of self d c0 ->
            <[processed_path_of self d c0 := ImageFile im]> g !! p = g !! p)
    as Hsame by (intros p Hp; by rewrite lookup_insert_ne).
  split; [|split].
  - apply Hsame, raw_is_not_processed.
  - unfold writable, in_directory. rewrite parent_processed_path.
    rewrite missing_error_insert
      by (unfold processed_path_of; rewrite !length_app; cbn; lia).
    rewrite (Hsame (processed_path_of self d c)).
    + rewrite (Hsame (processed_dir_of self d)); [done|].
      intros E. symmetry in E. by apply processed_dir_is_not_a_file in E.
    + intros E. apply processed_path_inj in E as [_ E]. by apply Hne.
  - intros q Hq. apply Hsame.
    by destruct (font_path_is_not_processed self d q Hq) as [_ Hout].
Qed.

Lemma flat_map_ext_in' {A B} (f g : A -> list B) (l : list A) :
  (forall x, x ∈ l -> f x = g x) -> flat_map f l = flat_map g l.
Proof.
  induction l as [|a l IH]; intros Hext; [done|]. cbn [flat_map].
  rewrite (Hext a) by apply list_elem_of_here.
  rewrite IH; [done|]. intros x Hx. apply Hext. by apply list_elem_of_further.
Qed.

(** The loop over distinct categories as a function of the file system it
    starts from: its output and calls are those of the turns, each taken
    from the start, and at every processed path sits the image of the turn
    that writes there, or what was there. *)
Lemma process_categories_explicit self d cs g :
  NoDup cs ->
  let turn := fun c =>
    process_one (raw_dir_of self d) (processed_dir_of self d) d
                (filename_of c, processor_of self c) g in
  let o := process_categories self d cs g in
  res o = Ok tt
  /\ printed o = flat_map (fun c => printed (turn c)) cs
  /\ called o = flat_map (fun c => called (turn c)) cs
  /\ (forall c, c ∈ cs ->
        fs_after o !! processed_path_of self d c
        = match written self d c g with
          | Some im => Some (ImageFile im)
          | None => g !! processed_path_of self d c
          end)
  /\ (forall p, (forall c, c ∈ cs -> p <> processed_path_of self d c) ->
        fs_after o !! p = g !! p).
Proof.
  intros Hnodup. revert g.
  induction Hnodup as [|c0 cs Hfresh Hnodup IH]; intros g; cbn zeta.
  - cbn. split; [done|]. split; [done|]. split; [done|].
    split; [intros c Hc; by apply elem_of_nil in Hc | done].
  - destruct (process_one_spec self d c0 g) as (Hres0 & _).
    pose proof (process_one_fs_after self d c0 g) as Hfs0.
    pose proof (fun c (Hc' : c ∈ cs) =>
                  same_inputs_after_turn self d c0 c g
                    (fun E => Hfresh (eq_ind c (fun x => x ∈ cs) Hc' c0 E)))
      as Hsame.
    destruct (IH (fs_after
                (process_one (raw_dir_of self d) (processed_dir_of self d) d
                             (filename_of c0, processor_of self c0) g)))
      as (Hres & Hp & Hc & Hout & Hframe).
    unfold process_categories in *. cbn [List.map for_each_M].
    destruct (bind_fields
                (process_one (raw_dir_of self d) (processed_dir_of self d) d
                             (filename_of c0, processor_of self c0))
                (fun _ => for_each_M
                   (process_one (raw_dir_of self d) (processed_dir_of self d) d)
                   (List.map (fun c => (filename_of c, processor_of self c)) cs))
                g tt Hres0) as (-> & -> & -> & ->).
    cbn [flat_map].
    split; [done|]. split; [|split; [|split]].
    + rewrite Hp. f_equal. apply flat_map_ext_in'. intros c Hc'.
      by destruct (process_one_same_inputs self d c _ g (Hsame c Hc'))
        as (_ & -> & _).
    + rewrite Hc. f_equal. apply flat_map_ext_in'. intros c Hc'.
      by destruct (process_one_same_inputs self d c _ g (Hsame c Hc'))
        as (_ & _ & -> & _).
    + intros c Hc'. apply elem_of_cons in Hc' as [-> | Hc'].
      * rewrite Hframe.
        -- rewrite Hfs0. destruct (written self d c0 g) as [im|]; [|done].
           apply lookup_insert_eq.
        -- intros c Hc' E. apply processed_path_inj in E as [_ <-].
           by apply Hfresh.
      * rewrite (Hout c Hc').
        destruct (process_one_same_inputs self d c _ g (Hsame c Hc'))
          as (_ & _ & _ & ->).
        destruct (written self d c g) as [im|]; [done|].
        rewrite Hfs0. destruct (written self d c0 g) as [im0|]; [|done].
        rewrite lookup_insert_ne; [done|].
        intros E. apply processed_path_inj in E as [_ ->]. by apply Hfresh.
    + intros p Hp'. rewrite Hframe.
      * rewrite Hfs0. destruct (written self d c0 g) as [im0|]; [|done].
        rewrite lookup_insert_ne; [done|].
        intros E. by apply (Hp' c0 (list_elem_of_here _ _)).
      * intros c Hc'. apply Hp'. by apply list_elem_of_further.
Qed.

Lemma NoDup_categories : NoDup categories.
Proof.
  unfold categories.
  repeat (apply NoDup_cons_2;
          [rewrite ?elem_of_cons, elem_of_nil; intuition discriminate|]).
  apply NoDup_nil_2.
Qed.

Lemma outcome_fields {A} (o : outcome A) r fs p c :
  res o = r -> fs_after o = fs -> printed o = p -> called o = c ->
  o = Outcome r fs p c.
Proof. destruct o. cbn. by intros -> -> -> ->. Qed.

Lemma written_was_writable self d c g im :
  written self d c g = Some im ->
  writable g (processed_path_of self d c) = Ok tt.
Proof.
  unfold written.
  destruct (bool_decide (is_Some (g !! raw_path_of self d c))); [|done].
  destruct (open_result g (raw_path_of self d c)); [|done].
  by destruct (writable g (processed_path_of self d c)) as [[]|].
Qed.

(** The loop of a device, run on a file system that looks like the one a
    first run of the loop left: the same output and calls, and nothing
    changes. *)
Lemma categories_rerun self d g h :
  g !! processed_dir_of self d = Some Directory ->
  same_reads self d h
    (fs_after (process_categories self d categories g)) ->
  process_categories self d categories h
  = Outcome (Ok tt) h
      (printed (process_categories self d categories g))
      (called (process_categories self d categories g)).
Proof.
  intros Hdir (_ & _ & Hpd & Hraw & Hout & Hfonts).
  destruct (process_categories_explicit self d categories g NoDup_categories)
    as (_ & P1 & C1 & O1 & F1).
  destruct (process_categories_explicit self d categories h NoDup_categories)
    as (R2 & P2 & C2 & O2 & F2).
  assert (forall c, same_inputs self d c h g) as Hsame.
  { intros c. split; [|split].
    - rewrite Hraw. apply F1. intros c' _. apply raw_is_not_processed.
    - unfold writable, in_directory. rewrite parent_processed_path.
      rewrite Hpd, F1, Hdir, Hout, (O1 c (elem_of_categories c)).
      + destruct (written self d c g) as [im|] eqn:Hw; [|done].
        apply written_was_writable in Hw. revert Hw.
        unfold writable, in_directory.
        rewrite parent_processed_path, Hdir. by intros ->.
      + intros c' _ E. symmetry in E. by apply processed_dir_is_not_a_file in E.
    - intros q Hq. rewrite (Hfonts q Hq). apply F1. intros c' _.
      by destruct (font_path_is_not_processed self d q Hq) as [_ Hne]. }
  apply outcome_fields.
  - exact R2.
  - apply map_eq. intros p.
    destruct (decide (p ∈ List.map (processed_path_of self d) categories))
      as [Hin | Hnotin].
    + apply list_elem_of_In, in_map_iff in Hin as (c & <- & _).
      rewrite (O2 c (elem_of_categories c)).
      destruct (process_one_same_inputs self d c h g (Hsame c))
        as (_ & _ & _ & ->).
      destruct (written self d c g) as [im|] eqn:Hw; [|done].
      by rewrite Hout, (O1 c (elem_of_categories c)), Hw.
    + apply F2. intros c _ ->. apply Hnotin.
      apply list_elem_of_In, in_map, list_elem_of_In, elem_of_categories.
  - rewrite P1, P2. apply flat_map_ext_in'. intros c _.
    by destruct (process_one_same_inputs self d c h g (Hsame c)) as (_ & -> & _).
  - rewrite C1, C2. apply flat_map_ext_in'. intros c _.
    by destruct (process_one_same_inputs self d c h g (Hsame c))
      as (_ & _ & -> & _).
Qed.

Lemma mkdir_exist_ok_cases p g :
  (res (mkdir_exist_ok p g) = Ok tt
   /\ fs_after (mkdir_exist_ok p g) !! p = Some Directory)
  \/ (exists e, mkdir_exist_ok p g = Outcome (Raise e) g [] []).
Proof.
  unfold mkdir_exist_ok. destruct (g !! p) as [[]|] eqn:Hp; eauto.
  destruct (in_directory g p) as [[]|e]; [|eauto].
  left. split; [done|]. apply lookup_insert_eq.
Qed.

Lemma mkdir_exist_ok_there p h :
  h !! p = Some Directory -> mkdir_exist_ok p h = Outcome (Ok tt) h [] [].
Proof. intros Hp. unfold mkdir_exist_ok. by rewrite Hp. Qed.

Lemma mkdir_exist_ok_raise_ext p g h e :
  mkdir_exist_ok p g = Outcome (Raise e) g [] [] ->
  h !! p = g !! p -> h !! parent p = g !! parent p ->
  missing_error h p = missing_error g p ->
  mkdir_exist_ok p h = Outcome (Raise e) h [] [].
Proof.
  unfold mkdir_exist_ok, in_directory. intros Hg -> -> ->. revert Hg.
  destruct (g !! p) as [[]|]; try (intros [= <-]; done); try done.
  destruct (g !! parent p) as [[]|]; try (intros [= <-]; done); done.
Qed.

Lemma missing_error_processed_dir self d g h :
  (forall q, q `prefix_of` (base_dir self ++ [d]) -> h !! q = g !! q) ->
  missing_error h (processed_dir_of self d)
  = missing_error g (processed_dir_of self d).
Proof.
  intros Hsame. apply missing_error_ext. intros q [k Hk] Hne. apply Hsame.
  unfold processed_dir_of in *.
  change [d; "Processed"%string] with ([d] ++ ["Processed"%string]) in *.
  rewrite app_assoc in *.
  destruct (decide (k = [])) as [-> | Hk'].
  { rewrite app_nil_r in Hk. by destruct Hne. }
  destruct (exists_last Hk') as (k' & last & ->).
  rewrite app_assoc in Hk. apply app_inj_tail in Hk as [-> _].
  by exists k'.
Qed.

Lemma raw_dir_is_not_processed self d :
  raw_dir_of self d <> processed_dir_of self d
  /\ forall c, raw_dir_of self d <> processed_path_of self d c.
Proof.
  unfold raw_dir_of, processed_dir_of, processed_path_of.
  split; [|intros c]; intros E; apply app_inv_head in E; by simplify_eq.
Qed.

(** The per-device routine, run on a file system that looks like the one
    a first run of it left: the same result, output and calls, and nothing
    changes. *)
Lemma device_rerun self d g h :
  same_reads self d h (fs_after (process_screenshots_for_device self d g)) ->
  process_screenshots_for_device self d h
  = Outcome (res (process_screenshots_for_device self d g)) h
            (printed (process_screenshots_for_device self d g))
            (called (process_screenshots_for_device self d g)).
Proof.
  rewrite !device_run.
  destruct (raw_dir_is_not_processed self d) as (Hrd1 & Hrd2).
  destruct (bool_decide (is_Some (g !! raw_dir_of self d))) eqn:Hg.
  - destruct (mkdir_exist_ok_cases (processed_dir_of self d) g)
      as [(Hres & Hdir) | (e & Hraise)].
    + destruct (mkdir_exist_ok_quiet (processed_dir_of self d) g) as (Hp & Hc).
      destruct (bind_fields (mkdir_exist_ok (processed_dir_of self d))
                  (fun _ => process_categories self d categories) g tt Hres)
        as (-> & -> & -> & ->).
      rewrite Hp, Hc. cbn [app].
      set (g' := fs_after (mkdir_exist_ok (processed_dir_of self d) g)) in *.
      destruct (process_categories_explicit self d categories g'
                  NoDup_categories) as (R1 & _ & _ & _ & F1).
      intros Hsame. pose proof Hsame as (_ & Hrawdir & Hpd & _).
      rewrite F1 in Hrawdir by (intros c _; apply Hrd2).
      unfold g' in Hrawdir.
      rewrite mkdir_exist_ok_frame in Hrawdir by done.
      rewrite Hrawdir, Hg.
      rewrite F1, Hdir in Hpd
        by (intros c _ E; symmetry in E;
            by apply processed_dir_is_not_a_file in E).
      unfold bind. cbv zeta.
      rewrite (mkdir_exist_ok_there _ h Hpd). cbn [res fs_after printed called].
      rewrite (categories_rerun self d g' h Hdir Hsame), R1. done.
    + unfold bind. cbv zeta. rewrite !Hraise.
      cbn [res fs_after printed called].
      intros (Hdev & Hrawdir & Hpd & _). rewrite Hrawdir, Hg.
      rewrite (mkdir_exist_ok_raise_ext _ g h e Hraise Hpd); [by cbn| |].
      * rewrite parent_processed_dir. by apply Hdev.
      * by apply missing_error_processed_dir.
  - cbn [fs_after res printed called]. intros (_ & -> & _). by rewrite Hg.
Qed.

Lemma same_reads_read_by self d h g :
  same_reads self d h g <-> forall p, read_by self d p -> h !! p = g !! p.
Proof.
  split.
  - intros (H1 & H2 & H3 & H4 & H5 & H6) p
      [Hpre | [-> | [-> | [(c & ->) | [(c & ->) | Hq]]]]]; auto.
  - intros H. unfold same_reads, read_by in *.
    repeat split; intros; apply H; eauto 10.
Qed.

(** What one device's routine looks at lies outside what another device's
    routine can write. *)
Lemma read_by_other_device self d0 d p :
  d <> d0 -> read_by self d0 p ->
  p <> processed_dir_of self d /\ forall c, p <> processed_path_of self d c.
Proof.
  intros Hne Hread.
  destruct Hread as [Hpre | [-> | [-> | [(c0 & ->) | [(c0 & ->) | Hq]]]]];
    [|..|by apply font_path_is_not_processed];
    unfold raw_dir_of, processed_dir_of, raw_path_of, processed_path_of.
  1: { apply prefix_length in Hpre. rewrite length_app in Hpre. cbn in Hpre.
       split; [|intros c]; intros ->; rewrite length_app in Hpre;
         cbn in Hpre; lia. }
  all: (split; [|intros c]); intros E; apply app_inv_head in E; by simplify_eq.
Qed.

Lemma devices_keep_reads self ds d0 g p :
  d0 ∉ ds -> read_by self d0 p ->
  fs_after (process_devices self ds g) !! p = g !! p.
Proof.
  intros Hfresh Hread.
  assert (writes_within
            (fun q => exists d, d ∈ ds
               /\ (q = processed_dir_of self d
                   \/ exists c, q = processed_path_of self d c))
            (process_devices self ds)) as Hw.
  { apply writes_within_for_each_M. intros d Hd.
    apply writes_within_bind; [apply writes_within_print | intros _].
    eapply writes_within_mono; [|apply writes_within_device].
    intros q Hq. exists d. split; [by apply list_elem_of_In | exact Hq]. }
  destruct (Hw g p) as [E | ((d & Hd & Harea) & _)]; [done|].
  assert (d <> d0) as Hne by (intros ->; by apply Hfresh).
  destruct (read_by_other_device self d0 d p Hne Hread) as (Hpd & Hout).
  destruct Harea as [-> | (c & ->)]; [done | by destruct (Hout c)].
Qed.

(** The loop over distinct devices, run on a file system that looks to
    each of them like the one a first run of the loop left. *)
Lemma devices_rerun self ds g h :
  NoDup ds ->
  (forall d, d ∈ ds ->
     same_reads self d h (fs_after (process_devices self ds g))) ->
  process_devices self ds h
  = Outcome (res (process_devices self ds g)) h
            (printed (process_devices self ds g))
            (called (process_devices self ds g)).
Proof.
  intros Hnodup. revert g.
  induction Hnodup as [|d0 ds Hfresh Hnodup IH]; intros g Hsame; [done|].
  unfold process_devices in *. cbn [for_each_M] in *.
  set (rest := for_each_M
                 (fun device_type =>
                    (do! print (MsgDevice device_type) in
                     process_screenshots_for_device self device_type)%py) ds)
    in *.
  revert Hsame. unfold bind, print. cbv zeta.
  cbn [res fs_after printed called and_then app].
  destruct (res (process_screenshots_for_device self d0 g)) as [[]|e] eqn:Hres;
    cbn [res fs_after printed called and_then app]; intros Hsame.
  - assert (same_reads self d0 h
              (fs_after (process_screenshots_for_device self d0 g))) as H0.
    { apply same_reads_read_by. intros p Hp.
      pose proof (Hsame d0 (list_elem_of_here _ _)) as Hd0.
      rewrite same_reads_read_by in Hd0. rewrite (Hd0 p Hp).
      exact (devices_keep_reads self ds d0 _ p Hfresh Hp). }
    rewrite (device_rerun self d0 g h H0), Hres.
    cbn [res fs_after printed called].
    rewrite (IH (fs_after (process_screenshots_for_device self d0 g)));
      [done|].
    intros d Hd. apply Hsame. by apply list_elem_of_further.
  - rewrite (device_rerun self d0 g h (Hsame d0 (list_elem_of_here _ _))), Hres.
    done.
Qed.

Lemma load_metadata_ext the_metadata_file g h :
  h !! the_metadata_file = g !! the_metadata_file ->
  missing_error h the_metadata_file = missing_error g the_metadata_file ->
  load_metadata the_metadata_file h
  = Outcome (res (load_metadata the_metadata_file g)) h
            (printed (load_metadata the_metadata_file g))
            (called (load_metadata the_metadata_file g)).
Proof.
  intros E Herr. unfold load_metadata, try_except, open_json.
  rewrite E, Herr.
  destruct (g !! the_metadata_file) as [[]|]; try done.
  by destruct (missing_error g the_metadata_file).
Qed.

Lemma metadata_file_is_not_processed base :
  ~ processed_area base (base ++ ["screenshot_metadata.json"%string]).
Proof.
  intros (d & _ & [E | (c & E)]); apply app_inv_head in E; by simplify_eq.
Qed.

(** A statement framed by two lines of output before and two after is
    as good at running twice as the statement. *)
Lemma framed_rerun (body : M unit) (m1 m2 m3 m4 : message) g :
  body (fs_after (body g))
  = Outcome (res (body g)) (fs_after (body g)) (printed (body g))
            (called (body g)) ->
  let framed :=
    (do! print m1 in do! print m2 in do! body in do! print m3 in print m4)%py in
  framed (fs_after (framed g))
  = Outcome (res (framed g)) (fs_after (framed g)) (printed (framed g))
            (called (framed g)).
Proof.
  intros Hre. unfold bind, print. cbv zeta.
  cbn [res fs_after printed called and_then app].
  destruct (body g) as [r f1 p c].
  cbn [res fs_after printed called] in *.
  destruct r as [[]|e]; cbn [res fs_after printed called and_then app];
    rewrite Hre; done.
Qed.

Lemma process_all_rerun self g :
  process_all_screenshots self (fs_after (process_all_screenshots self g))
  = Outcome (res (process_all_screenshots self g))
            (fs_after (process_all_screenshots self g))
            (printed (process_all_screenshots self g))
            (called (process_all_screenshots self g)).
Proof.
  apply (framed_rerun (process_devices self device_types)
           MsgStart MsgRule MsgComplete MsgSavedIn g).
  apply devices_rerun; [apply NoDup_device_types|].
  intros d _. by apply same_reads_read_by.
Qed.

Lemma processed_area_is_deep base q name :
  processed_area base q -> ~ q `prefix_of` (base ++ [name]).
Proof.
  intros (d & _ & [-> | (c & ->)]) Hpre; apply prefix_length in Hpre;
    rewrite !length_app in Hpre; cbn in Hpre; lia.
Qed.

Lemma new_generator_ext base g h :
  h !! (base ++ ["screenshot_metadata.json"%string])
  = g !! (base ++ ["screenshot_metadata.json"%string]) ->
  missing_error h (base ++ ["screenshot_metadata.json"%string])
  = missing_error g (base ++ ["screenshot_metadata.json"%string]) ->
  new_generator base h
  = Outcome (res (new_generator base g)) h (printed (new_generator base g))
            (called (new_generator base g)).
Proof.
  intros E Herr. unfold new_generator, bind. cbv zeta.
  rewrite (load_metadata_ext _ g h E Herr).
  cbn [res fs_after printed called].
  destruct (res (load_metadata _ g)); cbn [res fs_after printed called and_then ret];
    done.
Qed.

(** A statement that writes nothing, followed by one that can be run
    twice and does not change what the first reads. *)
Lemma rerun_after_read {A B} (m : M A) (k : A -> M B) fs :
  (forall a, res (m fs) = Ok a ->
     m (fs_after (k a fs))
     = Outcome (res (m fs)) (fs_after (k a fs)) (printed (m fs)) (called (m fs))
     /\ k a (fs_after (k a fs))
        = Outcome (res (k a fs)) (fs_after (k a fs)) (printed (k a fs))
                  (called (k a fs))) ->
  fs_after (m fs) = fs ->
  let first := bind m k fs in
  bind m k (fs_after first)
  = Outcome (res first) (fs_after first) (printed first) (called first).
Proof.
  intros Hk Hm. unfold bind. cbv zeta. rewrite Hm.
  destruct (res (m fs)) as [a|e] eqn:E;
    cbn [res fs_after printed called and_then].
  - destruct (Hk a eq_refl) as (H1 & H2). rewrite H1.
    cbn [res fs_after printed called]. rewrite H2. reflexivity.
  - rewrite E. cbn [res fs_after printed called]. by rewrite ?Hm.
Qed.

(** X14. Running [main] a second time, on the file system the first run
    left, changes nothing: the second run ends as the first did, prints
    the same lines and makes the same calls, and leaves every path as it
    found it. *)
Theorem second_run_changes_nothing argv1 script_dir fs :
  let first := main argv1 script_dir fs in
  main argv1 script_dir (fs_after first)
  = Outcome (res first) (fs_after first) (printed first) (called first).
Proof.
  apply (rerun_after_read
           (new_generator
              match argv1 with Some given => given | None => script_dir end)
           process_all_screenshots fs);
    [|apply new_generator_keeps_fs].
  intros self Hself. split; [|apply process_all_rerun].
  apply new_generator_base in Hself.
  apply new_generator_ext.
  - destruct (writes_within_process_all self fs
                (match argv1 with Some given => given | None => script_dir end
                 ++ ["screenshot_metadata.json"%string]))
      as [E | (Harea & _)]; [exact E|].
    rewrite Hself in Harea.
    by apply metadata_file_is_not_processed in Harea.
  - apply missing_error_ext. intros q Hpre _.
    destruct (writes_within_process_all self fs q) as [E | (Harea & _)];
      [exact E|].
    rewrite Hself in Harea.
    by apply processed_area_is_deep with (name := "screenshot_metadata.json"%string)
      in Harea.
Qed.


(** ** What a run that returns has produced *)

Lemma category_final_opaque fs c device_type im px py :
  alpha (im_px (category_final fs c device_type im) px py) = 255.
Proof. by destruct c. Qed.

Lemma bind_ok_inv {A B} (m : M A) (k : A -> M B) fs b :
  res (bind m k fs) = Ok b ->
  exists a,
    res (m fs) = Ok a
    /\ res (k a (fs_after (m fs))) = Ok b
    /\ fs_after (bind m k fs) = fs_after (k a (fs_after (m fs))).
Proof.
  unfold bind. cbv zeta.
  destruct (res (m fs)) as [a|e]; cbn [res fs_after and_then]; [|done].
  intros Hk. by exists a.
Qed.

Lemma framed_fields (body : M unit) (m1 m2 m3 m4 : message) g :
  let framed :=
    (do! print m1 in do! print m2 in do! body in do! print m3 in print m4)%py in
  fs_after (framed g) = fs_after (body g)
  /\ (res (framed g) = Ok tt -> res (body g) = Ok tt).
Proof.
  unfold bind, print. cbv zeta.
  cbn [res fs_after printed called and_then app].
  destruct (body g) as [[[]|e] f1 p c];
    cbn [res fs_after printed called and_then app]; done.
Qed.

Lemma device_keeps_reads self d0 d g p :
  d <> d0 -> read_by self d p ->
  fs_after (process_screenshots_for_device self d0 g) !! p = g !! p.
Proof.
  intros Hne Hread.
  destruct (writes_within_device self d0 g p) as [E | (Harea & _)]; [done|].
  assert (d0 <> d) as Hne' by congruence.
  destruct (read_by_other_device self d d0 p Hne' Hread) as (Hpd & Hout).
  destruct Harea as [-> | (c & ->)]; [done | by destruct (Hout c)].
Qed.

(** In a loop over distinct devices that returns, the routine of each
    device has run, from a file system that looked to it like the one the
    loop started from, and what it left at its processed paths is still
    there at the end. *)
Lemma devices_result self ds g d :
  NoDup ds -> d ∈ ds ->
  res (process_devices self ds g) = Ok tt ->
  exists g',
    (forall p, read_by self d p -> g' !! p = g !! p)
    /\ res (process_screenshots_for_device self d g') = Ok tt
    /\ forall c,
         fs_after (process_devices self ds g) !! processed_path_of self d c
         = fs_after (process_screenshots_for_device self d g')
             !! processed_path_of self d c.
Proof.
  intros Hnodup. revert g.
  induction Hnodup as [|d0 ds Hfresh Hnodup IH]; intros g Hd Hres;
    [by apply elem_of_nil in Hd|].
  change (process_devices self (d0 :: ds))
    with (do! (do! print (MsgDevice d0) in
               process_screenshots_for_device self d0) in
          process_devices self ds)%py in Hres |- *.
  apply bind_ok_inv in Hres as ([] & Hres0 & Hrest & Hfs).
  apply bind_ok_inv in Hres0 as ([] & _ & Hres0 & Hfs0).
  cbn [print fs_after] in Hres0, Hfs0.
  rewrite Hfs. rewrite Hfs0 in *.
  apply elem_of_cons in Hd as [-> | Hd].
  - exists g. split; [done|]. split; [done|]. intros c.
    apply (devices_keep_reads self ds d0); [done|]. unfold read_by. eauto 10.
  - destruct (IH _ Hd Hrest) as (g' & Hsame & Hres' & Hout).
    exists g'. split; [|by split].
    intros p Hp. rewrite (Hsame p Hp).
    apply (device_keeps_reads self d0 d); [|done].
    intros ->. by apply Hfresh.
Qed.

(** A per-device routine that returns has written the final image of
    every category whose raw file is an image and whose processed path is
    not a directory. *)
Lemma device_writes_image self d g c im :
  res (process_screenshots_for_device self d g) = Ok tt ->
  is_Some (g !! raw_dir_of self d) ->
  g !! raw_path_of self d c = Some (ImageFile im) ->
  g !! processed_path_of self d c <> Some Directory ->
  exists g'',
    fs_after (process_screenshots_for_device self d g)
      !! processed_path_of self d c
    = Some (ImageFile (category_final g'' c d im)).
Proof.
  rewrite device_run. intros Hres Hrawdir Hraw Hout. revert Hres.
  rewrite bool_decide_eq_true_2 by done.
  destruct (mkdir_exist_ok_cases (processed_dir_of self d) g)
    as [(Hmk & Hdir) | (e & Hraise)].
  - intros _.
    destruct (bind_fields (mkdir_exist_ok (processed_dir_of self d))
                (fun _ => process_categories self d categories) g tt Hmk)
      as (_ & -> & _ & _).
    set (g' := fs_after (mkdir_exist_ok (processed_dir_of self d) g)) in *.
    destruct (process_categories_explicit self d categories g'
                NoDup_categories) as (_ & _ & _ & O1 & _).
    exists g'. rewrite (O1 c (elem_of_categories c)).
    assert (g' !! raw_path_of self d c = Some (ImageFile im)) as Hraw'.
    { unfold g'. rewrite mkdir_exist_ok_frame; [done|].
      apply raw_is_not_processed_dir. }
    assert (g' !! processed_path_of self d c <> Some Directory) as Hout'.
    { unfold g'. rewrite mkdir_exist_ok_frame; [done|].
      apply processed_dir_is_not_a_file. }
    unfold written, open_result, writable, in_directory.
    rewrite parent_processed_path, Hraw', Hdir.
    rewrite bool_decide_eq_true_2 by done.
    by destruct (g' !! processed_path_of self d c) as [[]|].
  - unfold bind. cbv zeta. by rewrite Hraise.
Qed.

(** X17. When [main] returns, every raw screenshot that is an image has
    its processed counterpart: for each of the five devices with a [Raw]
    directory and each category, unless a directory sits at the processed
    path, the file there is an [RGB] image of the width and height of the
    raw one, every pixel opaque. *)
Theorem every_valid_screenshot_is_processed argv1 script_dir fs d c im :
  let base := match argv1 with Some given => given | None => script_dir end in
  res (main argv1 script_dir fs) = Ok tt ->
  In d device_types ->
  is_Some (fs !! (base ++ [d; "Raw"%string])) ->
  fs !! (base ++ [d; "Raw"%string; filename_of c]) = Some (ImageFile im) ->
  fs !! (base ++ [d; "Processed"%string; filename_of c]) <> Some Directory ->
  exists out,
    fs_after (main argv1 script_dir fs)
      !! (base ++ [d; "Processed"%string; filename_of c])
    = Some (ImageFile out)
    /\ im_mode out = ModeRGB
    /\ im_width out = im_width im /\ im_height out = im_height im
    /\ forall px py, alpha (im_px out px py) = 255.
Proof.
  intros base Hres Hd Hrawdir Hraw Hout.
  apply (bind_ok_inv (new_generator base) process_all_screenshots) in Hres
    as (self & Hself & Hres & Hfs).
  change (fs_after (main argv1 script_dir fs))
    with (fs_after (bind (new_generator base) process_all_screenshots fs)).
  rewrite Hfs. rewrite new_generator_keeps_fs in *.
  apply new_generator_base in Hself.
  destruct (framed_fields (process_devices self device_types)
              MsgStart MsgRule MsgComplete MsgSavedIn fs) as (Hfs' & Hres').
  change (fs_after (process_all_screenshots self fs)
          = fs_after (process_devices self device_types fs)) in Hfs'.
  change (res (process_all_screenshots self fs) = Ok tt ->
          res (process_devices self device_types fs) = Ok tt) in Hres'.
  rewrite Hfs'. specialize (Hres' Hres).
  apply list_elem_of_In in Hd.
  destruct (devices_result self device_types fs d NoDup_device_types Hd Hres')
    as (g' & Hsame & Hdev & Hkept).
  assert (base ++ [d; "Raw"%string] = raw_dir_of self d) as Erawdir
    by (unfold raw_dir_of; by rewrite Hself).
  assert (base ++ [d; "Raw"%string; filename_of c] = raw_path_of self d c)
    as Eraw by (unfold raw_path_of; by rewrite Hself).
  assert (base ++ [d; "Processed"%string; filename_of c]
          = processed_path_of self d c)
    as Eout by (unfold processed_path_of; by rewrite Hself).
  rewrite Erawdir in Hrawdir. rewrite Eraw in Hraw. rewrite Eout in Hout |- *.
  rewrite Hkept.
  destruct (device_writes_image self d g' c im Hdev) as (g'' & ->).
  - rewrite Hsame; [done|]. unfold read_by. eauto.
  - rewrite Hsame; [done|]. unfold read_by. eauto 10.
  - rewrite Hsame; [done|]. unfold read_by. eauto 10.
  - eexists. split; [done|].
    destruct (category_final_shape g'' c d im) as (Hw & Hh & Hm).
    split; [done|]. split; [done|]. split; [done|].
    intros px py. apply category_final_opaque.
Qed.

End Script.

(** * The statements at work on the reference tree *)

(** ** Where the specification and the script part *)


(** C3 as stated fails. On a gameplay screenshot 1242 pixels wide (the
    width of a 6.5 inch phone) the title size is 74, the truncation of
    74.52, while rounding gives 75. Binary64 arithmetic gives the same
    74. *)
Lemma title_size_is_not_rounded :
  first_text_size
    (called
       (processor_of Reference.over Reference.int16 Reference.render_text
          Reference.truetype_loads Reference.self Gameplay
          Reference.raw_gameplay Reference.out_gameplay "iPhone_6.5"
          (<[Reference.raw_gameplay :=
               ImageFile (Reference.screenshot 1242 2688)]> Reference.tree)))
  = Some 74
  /\ py_round (inject_Z 1242 * 0.06) = 75
  /\ Binary64.float_int_times 1242 0.06 = 74.
Proof. split; [by vm_compute | split; by vm_compute]. Qed.

(** C5 as stated fails. The main-menu routine makes three text passes:
    title, subtitle and footer. *)
Lemma main_menu_has_three_text_passes :
  length
    (List.filter is_text
       (called
          (processor_of Reference.over Reference.int16 Reference.render_text
             Reference.truetype_loads Reference.self MainMenu
             Reference.raw_main_menu Reference.out_main_menu "iPhone_6.7"
             Reference.tree)))
  = 3%nat
  /\ 3%nat <> 2%nat.
Proof. split; [by vm_compute | done]. Qed.


(** C6 as stated fails. The accessibility screenshot is absent and a
    regular file sits where [Processed] should be: [mkdir] raises out of
    the per-device routine before any file is looked at, and no warning is
    printed. *)
Lemma uncreatable_processed_dir_escapes :
  (<[ ["shots"; "iPhone_6.7"; "Processed"]%string := OtherFile ]>
     Reference.tree)
    !! raw_path_of Reference.self "iPhone_6.7" Accessibility = None
  /\ res (process_screenshots_for_device Reference.over Reference.int16
            Reference.render_text Reference.truetype_loads Reference.self
            "iPhone_6.7"
            (<[ ["shots"; "iPhone_6.7"; "Processed"]%string := OtherFile ]>
               Reference.tree))
     = Raise FileExistsError
  /\ printed (process_screenshots_for_device Reference.over Reference.int16
                Reference.render_text Reference.truetype_loads Reference.self
                "iPhone_6.7"
                (<[ ["shots"; "iPhone_6.7"; "Processed"]%string := OtherFile ]>
                   Reference.tree))
     = [].
Proof. repeat split; by vm_compute. Qed.

(** ** Instances *)



(** C2 on the gameplay screenshot of the reference tree. *)
Lemma processed_image_keeps_size_witness :
  Reference.tree_with_processed !! Reference.raw_gameplay
  = Some (ImageFile (Reference.screenshot 10 20))
  /\ exists out,
       fs_after
         (processor_of Reference.over Reference.int16 Reference.render_text
            Reference.truetype_loads Reference.self Gameplay
            Reference.raw_gameplay Reference.out_gameplay "iPhone_6.7"
            Reference.tree_with_processed)
         !! Reference.out_gameplay = Some (ImageFile out)
       /\ im_width out = 10 /\ im_height out = 20.
Proof.
  assert (Reference.tree_with_processed !! Reference.raw_gameplay
          = Some (ImageFile (Reference.screenshot 10 20))) as H1
    by (vm_compute; reflexivity).
  split; [exact H1|].
  pose proof (processed_image_keeps_size Reference.over Reference.int16
                Reference.render_text Reference.truetype_loads Reference.self
                Gameplay Reference.raw_gameplay Reference.out_gameplay
                "iPhone_6.7" Reference.tree_with_processed
                (Reference.screenshot 10 20) H1) as (_ & _ & Hsaved).
  change (writable Reference.tree_with_processed Reference.out_gameplay)
    with (@Ok unit tt) in Hsaved.
  exact (proj2 Hsaved).
Defined.

(** C3 at width 1284 on the 0.06 tier: 77 pixels. *)
Lemma title_font_size_truncated_witness :
  (<[Reference.raw_gameplay := ImageFile (Reference.screenshot 1284 2778)]>
     Reference.tree) !! Reference.raw_gameplay
  = Some (ImageFile (Reference.screenshot 1284 2778))
  /\ 0 <= im_width (Reference.screenshot 1284 2778)
  /\ first_text_size
       (called
          (processor_of Reference.over Reference.int16 Reference.render_text
             Reference.truetype_loads Reference.self Gameplay
             Reference.raw_gameplay Reference.out_gameplay "iPhone_6.5"
             (<[Reference.raw_gameplay :=
                  ImageFile (Reference.screenshot 1284 2778)]>
                Reference.tree)))
     = Some 77.
Proof.
  assert ((<[Reference.raw_gameplay :=
               ImageFile (Reference.screenshot 1284 2778)]> Reference.tree)
            !! Reference.raw_gameplay
          = Some (ImageFile (Reference.screenshot 1284 2778))) as H1
    by apply lookup_insert_eq.
  assert (0 <= im_width (Reference.screenshot 1284 2778)) as H2
    by (simpl; lia).
  split; [exact H1|]. split; [exact H2|].
  exact (title_font_size_truncated Reference.over Reference.int16
           Reference.render_text Reference.truetype_loads Reference.self
           Gameplay Reference.raw_gameplay Reference.out_gameplay
           "iPhone_6.5" _ _ H1 H2).
Defined.

(** C5 on the gameplay screenshot of the reference tree: no gradient
    pass, two text passes. *)
Lemma category_calls_witness :
  Reference.tree !! Reference.raw_gameplay
  = Some (ImageFile (Reference.screenshot 10 20))
  /\ length
       (List.filter is_gradient
          (called
             (processor_of Reference.over Reference.int16 Reference.render_text
                Reference.truetype_loads Reference.self Gameplay
                Reference.raw_gameplay Reference.out_gameplay "iPhone_6.7"
                Reference.tree))) = 0%nat
  /\ length
       (List.filter is_text
          (called
             (processor_of Reference.over Reference.int16 Reference.render_text
                Reference.truetype_loads Reference.self Gameplay
                Reference.raw_gameplay Reference.out_gameplay "iPhone_6.7"
                Reference.tree))) = 2%nat.
Proof.
  assert (Reference.tree !! Reference.raw_gameplay
          = Some (ImageFile (Reference.screenshot 10 20))) as H1
    by (vm_compute; reflexivity).
  split; [exact H1|].
  destruct (category_calls Reference.over Reference.int16 Reference.render_text
              Reference.truetype_loads Reference.self Gameplay
              Reference.raw_gameplay Reference.out_gameplay "iPhone_6.7"
              Reference.tree (Reference.screenshot 10 20) H1)
    as (_ & Hg & Ht & _).
  split; [exact Hg | exact Ht].
Defined.


(** C6 on the reference tree: the accessibility screenshot of the 6.7
    inch phone is absent; the device routine returns and nothing appears
    at its processed path. *)
Lemma absent_raw_file_is_skipped_witness :
  Reference.tree !! raw_path_of Reference.self "iPhone_6.7" Accessibility = None
  /\ (is_Some (Reference.tree !! raw_dir_of Reference.self "iPhone_6.7") ->
      res (mkdir_exist_ok (processed_dir_of Reference.self "iPhone_6.7")
                          Reference.tree) = Ok tt)
  /\ res (process_screenshots_for_device Reference.over Reference.int16
            Reference.render_text Reference.truetype_loads Reference.self
            "iPhone_6.7" Reference.tree) = Ok tt
  /\ fs_after
       (process_screenshots_for_device Reference.over Reference.int16
          Reference.render_text Reference.truetype_loads Reference.self
          "iPhone_6.7" Reference.tree)
       !! processed_path_of Reference.self "iPhone_6.7" Accessibility
     = None.
Proof.
  assert (Reference.tree
            !! raw_path_of Reference.self "iPhone_6.7" Accessibility = None)
    as H1 by (vm_compute; reflexivity).
  assert (is_Some (Reference.tree !! raw_dir_of Reference.self "iPhone_6.7") ->
          res (mkdir_exist_ok (processed_dir_of Reference.self "iPhone_6.7")
                              Reference.tree) = Ok tt)
    as H2 by (intros _; vm_compute; reflexivity).
  split; [exact H1|]. split; [exact H2|].
  destruct (absent_raw_file_is_skipped Reference.over Reference.int16
              Reference.render_text Reference.truetype_loads Reference.self
              "iPhone_6.7" Accessibility Reference.tree H1 H2)
    as (Hres & Hkept & _).
  split; [exact Hres|].
  exact (eq_trans Hkept ltac:(vm_compute; reflexivity)).
Defined.


(** ** Instances of the further properties *)


(** X5 with the hex string ["#004C9F"] against the tuple (0, 76, 159),
    and different end colours. *)
Lemma gradient_depends_on_decoded_channels_witness :
  add_gradient_overlay Reference.over Reference.int16
    (Reference.screenshot 10 20) (ColorHex "#004C9F") (ColorTuple 1 2 3)
    (0, 0) (4, 2) 0.4
  = add_gradient_overlay Reference.over Reference.int16
      (Reference.screenshot 10 20) (ColorTuple 0 76 159) (ColorHex "zz")
      (0, 0) (4, 2) 0.4.
Proof.
  exact (gradient_depends_on_decoded_channels Reference.over Reference.int16
           (Reference.screenshot 10 20) (ColorHex "#004C9F")
           (ColorTuple 0 76 159) (ColorTuple 1 2 3) (ColorHex "zz")
           0 76 159 (0, 0) (4, 2) 0.4 eq_refl eq_refl).
Defined.

(** X6 with the string ["#zzzzzz"]: a band of height 2 raises, a band of
    height 0 returns the screenshot. *)
Lemma undecodable_colour_raises_with_a_strip_witness :
  fill_color Reference.int16 (ColorHex "#zzzzzz") 0 = Raise ValueError
  /\ add_gradient_overlay Reference.over Reference.int16
       (Reference.screenshot 10 20) (ColorHex "#zzzzzz") (ColorTuple 0 0 0)
       (0, 0) (4, 2) 0.4
     = Raise ValueError
  /\ exists out,
       add_gradient_overlay Reference.over Reference.int16
         (Reference.screenshot 10 20) (ColorHex "#zzzzzz") (ColorTuple 0 0 0)
         (0, 0) (4, 0) 0.4
       = Ok out
       /\ im_width out = 10.
Proof.
  assert (fill_color Reference.int16 (ColorHex "#zzzzzz") 0 = Raise ValueError)
    as H1 by reflexivity.
  split; [exact H1|]. split.
  - exact (proj1 (undecodable_colour_raises_with_a_strip Reference.over
                    Reference.int16 (Reference.screenshot 10 20)
                    (ColorHex "#zzzzzz") (ColorTuple 0 0 0) 0 0 4 2 0.4
                    ValueError H1) ltac:(lia)).
  - destruct (proj2 (undecodable_colour_raises_with_a_strip Reference.over
                       Reference.int16 (Reference.screenshot 10 20)
                       (ColorHex "#zzzzzz") (ColorTuple 0 0 0) 0 0 4 0 0.4
                       ValueError H1) ltac:(lia))
      as (out & Hout & Hw & _).
    exists out. split; [exact Hout | exact Hw].
Defined.

(** X7 on a grey 10 by 20 screenshot with a black band of opacity 0. *)
Lemma zero_opacity_changes_nothing_witness :
  (0 == 0)%Q
  /\ add_gradient_overlay Reference.over Reference.int16
       (Reference.screenshot 10 20) (ColorTuple 0 0 0) (ColorTuple 0 0 0)
       (0, 0) (4, 2) 0
     = Ok (faded Reference.over (Reference.screenshot 10 20) 0 0 0
                 (0, 0) (4, 2) 0)
  /\ im_px (faded Reference.over (Reference.screenshot 10 20) 0 0 0
                  (0, 0) (4, 2) 0) 1 1
     = RGBA 90 90 90 255.
Proof.
  assert (0 == 0)%Q as H1 by reflexivity.
  assert (add_gradient_overlay Reference.over Reference.int16
            (Reference.screenshot 10 20) (ColorTuple 0 0 0) (ColorTuple 0 0 0)
            (0, 0) (4, 2) 0
          = Ok (faded Reference.over (Reference.screenshot 10 20) 0 0 0
                      (0, 0) (4, 2) 0)) as H2 by reflexivity.
  split; [exact H1|]. split; [exact H2|].
  destruct (zero_opacity_changes_nothing Reference.over Reference.int16
              (Reference.screenshot 10 20) (ColorTuple 0 0 0) (ColorTuple 0 0 0)
              0 0 4 2 0 _ H1 H2) as (_ & _ & Hpx).
  exact (Hpx 1 1).
Defined.

(** X9 on the main-menu screenshot of the reference tree, 10 pixels
    wide: three text calls. *)
Lemma main_menu_text_hierarchy_witness :
  Reference.tree !! Reference.raw_main_menu
  = Some (ImageFile (Reference.screenshot 10 20))
  /\ 0 <= im_width (Reference.screenshot 10 20)
  /\ length
       (List.filter is_text
          (called
             (process_main_menu_screenshot Reference.over Reference.int16
                Reference.render_text Reference.truetype_loads Reference.self
                Reference.raw_main_menu Reference.out_main_menu "iPhone_6.7"
                Reference.tree)))
     = 3%nat.
Proof.
  assert (Reference.tree !! Reference.raw_main_menu
          = Some (ImageFile (Reference.screenshot 10 20))) as H1
    by (vm_compute; reflexivity).
  assert (0 <= im_width (Reference.screenshot 10 20)) as H2 by (simpl; lia).
  split; [exact H1|]. split; [exact H2|].
  destruct (main_menu_text_hierarchy Reference.over Reference.int16
              Reference.render_text Reference.truetype_loads Reference.self
              Reference.raw_main_menu Reference.out_main_menu "iPhone_6.7"
              Reference.tree (Reference.screenshot 10 20) H1 H2)
    as (t1 & x1 & y1 & s1 & c1 & w1 & k1 & f1
        & t2 & x2 & y2 & s2 & c2 & w2 & k2 & f2
        & t3 & p3 & s3 & c3 & w3 & k3 & f3 & Hcalls & _).
  exact (f_equal (@length call) Hcalls).
Defined.

(** X10 on the reference tree: the raw gameplay screenshot lies outside
    the [Processed] directories and is still there after the run. *)
Lemma run_writes_only_processed_witness :
  ~ processed_area Reference.base Reference.raw_gameplay
  /\ fs_after
       (main Reference.over Reference.int16 Reference.render_text
          Reference.truetype_loads (Some Reference.base) [] Reference.tree)
       !! Reference.raw_gameplay
     = Some (ImageFile (Reference.screenshot 10 20)).
Proof.
  assert (~ processed_area Reference.base Reference.raw_gameplay) as H1.
  { change Reference.raw_gameplay
      with (Reference.base ++ ["iPhone_6.7"; "Raw"; "02_gameplay.png"]%string).
    intros (d & _ & [E | (c & E)]); apply app_inv_head in E; discriminate E. }
  split; [exact H1|].
  exact (eq_trans
           (run_writes_only_processed Reference.over Reference.int16
              Reference.render_text Reference.truetype_loads
              (Some Reference.base) [] Reference.tree Reference.raw_gameplay
              H1)
           ltac:(vm_compute; reflexivity)).
Defined.

(** X12 on the base directory alone: no device has a [Raw] directory,
    and the run leaves the tree as it is and calls nothing. *)
Lemma no_raw_directory_no_work_witness :
  (forall d, In d device_types ->
     Reference.bare_tree !! raw_dir_of Reference.self d = None)
  /\ fs_after
       (process_all_screenshots Reference.over Reference.int16
          Reference.render_text Reference.truetype_loads Reference.self
          Reference.bare_tree)
     = Reference.bare_tree
  /\ called
       (process_all_screenshots Reference.over Reference.int16
          Reference.render_text Reference.truetype_loads Reference.self
          Reference.bare_tree)
     = [].
Proof.
  assert (forall d, In d device_types ->
            Reference.bare_tree !! raw_dir_of Reference.self d = None) as H1.
  { intros d Hd. simpl in Hd.
    destruct Hd as [<- | [<- | [<- | [<- | [<- | []]]]]];
      vm_compute; reflexivity. }
  split; [exact H1|].
  pose proof (no_raw_directory_no_work Reference.over Reference.int16
                Reference.render_text Reference.truetype_loads Reference.self
                Reference.bare_tree H1) as E.
  exact (conj (f_equal fs_after E) (f_equal called E)).
Defined.

(** X13 on the tree whose [iPhone_6.7/Raw] is empty: the [Processed]
    directory is there after the run. *)
Lemma empty_raw_directory_still_creates_processed_witness :
  is_Some (Reference.tree_without_screenshots
             !! raw_dir_of Reference.self "iPhone_6.7")
  /\ (forall c, Reference.tree_without_screenshots
                  !! raw_path_of Reference.self "iPhone_6.7" c = None)
  /\ Reference.tree_without_screenshots
       !! processed_dir_of Reference.self "iPhone_6.7" = None
  /\ fs_after
       (process_screenshots_for_device Reference.over Reference.int16
          Reference.render_text Reference.truetype_loads Reference.self
          "iPhone_6.7" Reference.tree_without_screenshots)
       !! processed_dir_of Reference.self "iPhone_6.7"
     = Some Directory.
Proof.
  assert (is_Some (Reference.tree_without_screenshots
                     !! raw_dir_of Reference.self "iPhone_6.7")) as H1
    by (eexists; vm_compute; reflexivity).
  assert (forall c, Reference.tree_without_screenshots
                      !! raw_path_of Reference.self "iPhone_6.7" c = None) as H2
    by (intros c; destruct c; vm_compute; reflexivity).
  assert (Reference.tree_without_screenshots
            !! processed_dir_of Reference.self "iPhone_6.7" = None) as H3
    by (vm_compute; reflexivity).
  assert (Reference.tree_without_screenshots
            !! (base_dir Reference.self ++ ["iPhone_6.7"%string])
          = Some Directory) as H4 by (vm_compute; reflexivity).
  split; [exact H1|]. split; [exact H2|]. split; [exact H3|].
  pose proof (empty_raw_directory_still_creates_processed Reference.over
                Reference.int16 Reference.render_text Reference.truetype_loads
                Reference.self "iPhone_6.7" Reference.tree_without_screenshots
                H1 H2 H3 H4) as E.
  exact (eq_trans
           (f_equal (fun o => fs_after o
                               !! processed_dir_of Reference.self "iPhone_6.7")
                    E)
           (lookup_insert_eq _ _ _)).
Defined.

(** X8 on the victory screenshot, which the reference tree lacks. *)
Lemma routine_contains_unreadable_input_witness :
  (forall im,
     Reference.tree !! raw_path_of Reference.self "iPhone_6.7" Victory
     <> Some (ImageFile im))
  /\ exists e,
       processor_of Reference.over Reference.int16 Reference.render_text
         Reference.truetype_loads Reference.self Victory
         (raw_path_of Reference.self "iPhone_6.7" Victory)
         (processed_path_of Reference.self "iPhone_6.7" Victory)
         "iPhone_6.7" Reference.tree
       = Outcome (Ok tt) Reference.tree
           [MsgProcessing Victory "iPhone_6.7";
            MsgError (raw_path_of Reference.self "iPhone_6.7" Victory) e]
           [CallOpen (raw_path_of Reference.self "iPhone_6.7" Victory)].
Proof.
  assert (forall im,
            Reference.tree !! raw_path_of Reference.self "iPhone_6.7" Victory
            <> Some (ImageFile im)) as H1
    by (intros im E; vm_compute in E; discriminate E).
  split; [exact H1|].
  exact (proj2 (routine_contains_unreadable_input Reference.over
                  Reference.int16 Reference.render_text
                  Reference.truetype_loads Reference.self Victory
                  (raw_path_of Reference.self "iPhone_6.7" Victory)
                  (processed_path_of Reference.self "iPhone_6.7" Victory)
                  "iPhone_6.7" Reference.tree) H1).
Defined.

(** X11 on the reference tree: the raw gameplay screenshot exists and
    still exists after the run. *)
Lemma run_never_deletes_witness :
  is_Some (Reference.tree !! Reference.raw_gameplay)
  /\ is_Some
       (fs_after
          (main Reference.over Reference.int16 Reference.render_text
             Reference.truetype_loads (Some Reference.base) [] Reference.tree)
          !! Reference.raw_gameplay).
Proof.
  assert (is_Some (Reference.tree !! Reference.raw_gameplay)) as H1
    by (eexists; vm_compute; reflexivity).
  split; [exact H1|].
  exact (proj1 (run_never_deletes Reference.over Reference.int16
                  Reference.render_text Reference.truetype_loads
                  (Some Reference.base) [] Reference.tree
                  Reference.raw_gameplay) H1).
Defined.

(** X17 on the gameplay screenshot of the reference tree, 10 by 20. *)
Lemma every_valid_screenshot_is_processed_witness :
  res (main Reference.over Reference.int16 Reference.render_text
         Reference.truetype_loads (Some Reference.base) [] Reference.tree)
  = Ok tt
  /\ Reference.tree
       !! (Reference.base ++ ["iPhone_6.7"; "Raw"; filename_of Gameplay]%string)
     = Some (ImageFile (Reference.screenshot 10 20))
  /\ exists out,
       fs_after
         (main Reference.over Reference.int16 Reference.render_text
            Reference.truetype_loads (Some Reference.base) [] Reference.tree)
         !! (Reference.base
             ++ ["iPhone_6.7"; "Processed"; filename_of Gameplay]%string)
       = Some (ImageFile out)
       /\ im_mode out = ModeRGB /\ im_width out = 10 /\ im_height out = 20.
Proof.
  assert (res (main Reference.over Reference.int16 Reference.render_text
                 Reference.truetype_loads (Some Reference.base) []
                 Reference.tree) = Ok tt) as H1 by (vm_compute; reflexivity).
  assert (In "iPhone_6.7"%string device_types) as H2 by (left; reflexivity).
  assert (is_Some (Reference.tree
                     !! (Reference.base ++ ["iPhone_6.7"; "Raw"]%string)))
    as H3 by (eexists; vm_compute; reflexivity).
  assert (Reference.tree
            !! (Reference.base
                ++ ["iPhone_6.7"; "Raw"; filename_of Gameplay]%string)
          = Some (ImageFile (Reference.screenshot 10 20))) as H4
    by (vm_compute; reflexivity).
  assert (Reference.tree
            !! (Reference.base
                ++ ["iPhone_6.7"; "Processed"; filename_of Gameplay]%string)
          <> Some Directory) as H5
    by (intros E; vm_compute in E; discriminate E).
  split; [exact H1|]. split; [exact H4|].
  destruct (every_valid_screenshot_is_processed Reference.over Reference.int16
              Reference.render_text Reference.truetype_loads
              (Some Reference.base) [] Reference.tree "iPhone_6.7" Gameplay
              (Reference.screenshot 10 20) H1 H2 H3 H4 H5)
    as (out & Hout & Hmode & Hw & Hh & _).
  exists out. split; [exact Hout|]. split; [exact Hmode|].
  split; [exact Hw | exact Hh].
Defined.

(** ** Binary64 against exact arithmetic *)

(** The spec's sample: width 1284 on the 0.06 tier gives 77 on binary64
    too. *)
Example binary64_title_1284 : Binary64.float_int_times 1284 0.06 = 77.
Proof. by vm_compute. Qed.

(** For every float literal of the script and every width or height up
    to 3000 pixels, [int(n * f)] on binary64 is the exact truncation. *)
Lemma binary64_int_times_agrees : Binary64.int_times_agree 3000 = true.
Proof. by vm_compute. Qed.

(** For the opacity of the script and every gradient height up to 300,
    the binary64 alpha of a row is the exact one or one less, and the two
    agree on the topmost row. *)
Lemma binary64_alpha_is_close :
  forallb Binary64.alpha_close (seqZ 1 300) = true.
Proof. by vm_compute. Qed.

(** For the opacity of the script, the binary64 alpha of the last row is
    0 for every gradient height from 102 to 1000. The exact alpha at
    height 102 is 1: there binary64 rounds [1 - 101 / 102] below
    [1 / 102]. Below 102 neither is 0. *)
Lemma binary64_last_alpha :
  forallb Binary64.last_alpha_zero (seqZ 102 899) = true
  /\ gradient_alpha 0.4 102 101 = 1
  /\ forallb (fun h => negb (Binary64.last_alpha_zero h)) (seqZ 1 101) = true.
Proof. repeat split; by vm_compute. Qed.

(** What [Binary64.int_times_agree] checks, whatever the bound. *)
Lemma int_times_agree_spec bound :
  Binary64.int_times_agree bound = true ->
  forall n f q,
    0 <= n <= bound -> In (f, q) Binary64.literals ->
    Binary64.float_int_times n f = int_times n q.
Proof.
  unfold Binary64.int_times_agree. intros Hall n f q Hn Hf.
  rewrite forallb_forall in Hall.
  assert (In n (seqZ 0 (bound + 1))) as Hin
    by (apply list_elem_of_In, elem_of_seqZ; lia).
  specialize (Hall n Hin). rewrite forallb_forall in Hall.
  specialize (Hall (f, q) Hf). by apply Z.eqb_eq in Hall.
Qed.

(** What [Binary64.alpha_close] checks over a range of heights. *)
Lemma alpha_close_spec count :
  forallb Binary64.alpha_close (seqZ 1 count) = true ->
  forall height i,
    1 <= height <= count -> 0 <= i < height ->
    Binary64.float_gradient_alpha 0.4 height i <= gradient_alpha 0.4 height i
    /\ gradient_alpha 0.4 height i
       <= Binary64.float_gradient_alpha 0.4 height i + 1
    /\ Binary64.float_gradient_alpha 0.4 height 0
       = gradient_alpha 0.4 height 0.
Proof.
  intros Hall height i Hh Hi.
  rewrite forallb_forall in Hall.
  assert (In height (seqZ 1 count)) as Hin
    by (apply list_elem_of_In, elem_of_seqZ; lia).
  specialize (Hall height Hin). unfold Binary64.alpha_close in Hall.
  apply andb_prop in Hall as [Htop Hrows].
  rewrite forallb_forall in Hrows.
  assert (In i (seqZ 0 height)) as Hrow
    by (apply list_elem_of_In, elem_of_seqZ; lia).
  specialize (Hrows i Hrow). cbv zeta in Hrows.
  apply andb_prop in Hrows as [Hlow Hhigh].
  apply Z.leb_le in Hlow, Hhigh. apply Z.eqb_eq in Htop. done.
Qed.

(** X15. Every font size and text position of the script is
    [int(n * f)] for a width or height [n] and one of ten float
    literals [f]. For [n] up to 3000, Python's binary64 product
    truncates to the same integer as the exact product with the decimal
    the literal is written as. *)
Theorem binary64_sizes_are_exact n f q :
  0 <= n <= 3000 -> In (f, q) Binary64.literals ->
  Binary64.float_int_times n f = int_times n q.
Proof.
  exact (int_times_agree_spec 3000 binary64_int_times_agrees n f q).
Qed.

(** X16. For the opacity 0.4 of the script and a gradient of height 1 to
    300, the alpha Python's binary64 arithmetic gives a row is the exact
    [int(0.4 * 255 * (1 - i / height))] or one below it, and on the
    topmost row the two agree. *)
Theorem binary64_alpha_within_one height i :
  1 <= height <= 300 -> 0 <= i < height ->
  Binary64.float_gradient_alpha 0.4 height i <= gradient_alpha 0.4 height i
  /\ gradient_alpha 0.4 height i
     <= Binary64.float_gradient_alpha 0.4 height i + 1
  /\ Binary64.float_gradient_alpha 0.4 height 0 = gradient_alpha 0.4 height 0.
Proof.
  exact (alpha_close_spec 300 binary64_alpha_is_close height i).
Qed.

(** X15 at width 1284 on the 0.06 tier. *)
Lemma binary64_sizes_are_exact_witness :
  0 <= 1284 <= 3000
  /\ In (0.06%float, 0.06%Q) Binary64.literals
  /\ Binary64.float_int_times 1284 0.06 = int_times 1284 0.06.
Proof.
  assert (0 <= 1284 <= 3000) as H1 by lia.
  assert (In (0.06%float, 0.06%Q) Binary64.literals) as H2
    by (do 4 right; left; reflexivity).
  split; [exact H1|]. split; [exact H2|].
  exact (binary64_sizes_are_exact 1284 0.06%float 0.06%Q H1 H2).
Defined.

(** X16 at height 102 and its last row, where binary64 gives 0 and the
    exact alpha is 1. *)
Lemma binary64_alpha_within_one_witness :
  1 <= 102 <= 300 /\ 0 <= 101 < 102
  /\ Binary64.float_gradient_alpha 0.4 102 101 <= gradient_alpha 0.4 102 101
  /\ gradient_alpha 0.4 102 101
     <= Binary64.float_gradient_alpha 0.4 102 101 + 1.
Proof.
  assert (1 <= 102 <= 300) as H1 by lia.
  assert (0 <= 101 < 102) as H2 by lia.
  split; [exact H1|]. split; [exact H2|].
  destruct (binary64_alpha_within_one 102 101 H1 H2) as (Hlow & Hhigh & _).
  exact (conj Hlow Hhigh).
Defined.
